(** * parse_hh.py: vacancy collection from the hh.ru API

    A shallow embedding of [src/parse_hh.py] and the properties its
    specification states about it.

    - Decoded JSON values are the inductive type [json]; a Python [dict] is
      the list of its items in insertion order (the order is visible through
      [repr]), looked up by key: a decoded dict has no two items with one
      key, and on a list that has, the first one counts.  Numbers are
      integers, as the API's [pages], [from] and [to] fields are; floating
      point values are outside the model.
    - A Python [str] is the string of its UTF-8 bytes; [in] on two strings
      is the search of a substring, which gives the same answer on the bytes
      as on the characters.
    - Python raises; the embedding returns [outcome], [Ok] or [Raise].
    - The network, the clock and the file system are a [world] that is
      threaded through the code: what the outside answers to the n-th
      external call is given by an [env], and every request, sleep and file
      operation is appended to a chronological trace of events.
    - The [while] loops take fuel; [None] means the fuel ran out.
    - What the code calls and the source does not define ([str.lower],
      [repr] of a [str], [int] of a [str], [os.path.dirname], the exception
      of [response.json()]) are the fields of the class [Builtins]; the code
      is modelled over any instance.
    - Calls of [logger] do not change the control flow and are left out. *)

From Stdlib Require Import ZArith String Ascii List Bool Lia DecimalString Sorted.
Import ListNotations.
Local Open Scope string_scope.
Local Open Scope Z_scope.

(** ** Decoded JSON and Python values *)

#[local] Set Warnings "-register-all".

Inductive json : Type :=
| JNull
| JBool (b : bool)
| JNum (n : Z)
| JStr (s : string)
| JArr (l : list json)
| JObj (kvs : list (string * json)).

Inductive exn : Type :=
| RequestException   (* requests.RequestException and its subclasses *)
| ValueError
| TypeError
| AttributeError
| OverflowError.

Inductive outcome (A : Type) : Type :=
| Ok (a : A)
| Raise (e : exn).
Arguments Ok {A} a.
Arguments Raise {A} e.

Definition obind {A B} (o : outcome A) (k : A -> outcome B) : outcome B :=
  match o with
  | Ok a => k a
  | Raise e => Raise e
  end.

Declare Scope outcome_scope.
Delimit Scope outcome_scope with outcome.
Notation "x <- c ;; k" := (obind c (fun x => k))
  (at level 61, c at next level, right associativity) : outcome_scope.

(** What the code calls and does not define: the Python built-ins that are
    given by the interpreter's Unicode tables, [os.path.dirname], which is
    given by the platform, the exception that [response.json()] raises on
    a body that is not JSON, which is given by the version of [requests]
    ([requests.JSONDecodeError], a RequestException, from 2.27 on; a plain
    ValueError before), and the longest sleep that [time.sleep] accepts, which
    is given by the platform and the version of the interpreter (above it
    [time.sleep] raises OverflowError) and is not less than the four seconds
    that are the longest sleep the code asks for by itself. *)
Class Builtins : Type := {
  str_lower : string -> string;          (* str.lower() *)
  str_repr : string -> string;           (* repr(s) for a str s *)
  int_of_str : string -> option Z;       (* int(s); None is ValueError *)
  path_dirname : string -> string;       (* os.path.dirname *)
  json_decode_error : exn;               (* raised by response.json() *)
  sleep_max : Z;                         (* longest length of time.sleep *)
  sleep_max_ok : 4 <= sleep_max
}.

(** *** Configuration (lines 11-16) *)

Definition AREA_ID : Z := 113.
Definition EXCEL_PATH : string :=
  "C:\Users\pavel\PycharmProjects\txx\vacancies_syktu.xlsx".
Definition MAX_RETRIES : Z := 3.
Definition REQUEST_DELAY : Z := 2.
Definition MAX_WAIT_TIME : Z := 30.

(** The literals of [format_salary] and of the record extraction. *)
Definition NOT_SPECIFIED : string := "не указана".
Definition CITY_KEYWORD : string := "сыктывкар".
Definition NO_TITLE : string := "Нет названия".
Definition NO_EMPLOYER : string := "Не указан".
Definition NO_LINK : string := "Нет ссылки".

(** *** dict.get, truth values, str() *)

Fixpoint assoc (k : string) (kvs : list (string * json)) : option json :=
  match kvs with
  | [] => None
  | (k', v) :: rest => if String.eqb k k' then Some v else assoc k rest
  end.

(** [d.get(k, default)]: only a dict has [get]. *)
Definition py_get (d : json) (k : string) (default : json) : outcome json :=
  match d with
  | JObj kvs =>
      match assoc k kvs with
      | Some v => Ok v
      | None => Ok default
      end
  | _ => Raise AttributeError
  end.

(** Truth value of a decoded JSON value, as [if v] tests it. *)
Definition truthy (v : json) : bool :=
  match v with
  | JNull => false
  | JBool b => b
  | JNum n => negb (n =? 0)
  | JStr s => negb (String.eqb s "")
  | JArr l => match l with [] => false | _ => true end
  | JObj kvs => match kvs with [] => false | _ => true end
  end.

Definition dec (n : Z) : string := NilZero.string_of_int (Z.to_int n).

Fixpoint join (sep : string) (l : list string) : string :=
  match l with
  | [] => ""
  | [s] => s
  | s :: rest => s ++ sep ++ join sep rest
  end.

Section Python.
Context {B : Builtins}.

(** [repr(v)] *)
Fixpoint py_repr (v : json) : string :=
  match v with
  | JNull => "None"
  | JBool true => "True"
  | JBool false => "False"
  | JNum n => dec n
  | JStr s => str_repr s
  | JArr l => "[" ++ join ", " (map py_repr l) ++ "]"
  | JObj kvs =>
      "{" ++ join ", "
               (map (fun kv => str_repr (fst kv) ++ ": " ++ py_repr (snd kv)) kvs)
          ++ "}"
  end.

(** [str(v)], which is what a replacement field of an f-string inserts. *)
Definition py_str (v : json) : string :=
  match v with
  | JStr s => s
  | _ => py_repr v
  end.

(** ** format_salary (lines 53-68) *)

Definition format_salary (salary : json) : outcome string :=
  if negb (truthy salary) then Ok NOT_SPECIFIED
  else
    (salary_from <- py_get salary "from" JNull ;;
     salary_to <- py_get salary "to" JNull ;;
     currency <- py_get salary "currency" (JStr "") ;;
     if truthy salary_from && truthy salary_to then
       Ok (py_str salary_from ++ " - " ++ py_str salary_to ++ " " ++ py_str currency)
     else if truthy salary_from then
       Ok ("от " ++ py_str salary_from ++ " " ++ py_str currency)
     else if truthy salary_to then
       Ok ("до " ++ py_str salary_to ++ " " ++ py_str currency)
     else Ok NOT_SPECIFIED)%outcome.

End Python.

(** ** The outside world *)

(** One output row, the dict built at lines 124-130; its keys are fixed. *)
Record vacancy : Type := {
  title : json;       (* "Название вакансии" *)
  employer : json;    (* "Работодатель" *)
  salary : string;    (* "Зарплата" *)
  city : string;      (* "Город" *)
  url : json          (* "Ссылка" *)
}.

(** What [requests.get] brings back: it raises, or it returns a response of
    which the code reads the status, the [Retry-After] header and the body
    ([None]: the body is not JSON). *)
Inductive reply : Type :=
| NetError
| Response (status : Z) (retry_after : option string) (body : option json).

(** The environment answers the n-th external call of the run. *)
Record env : Type := {
  http : nat -> Z -> reply;        (* GET BASE_URL with the given page *)
  now : nat -> Z;                  (* time.time() *)
  locked : nat -> bool;            (* open(filepath, 'a') raises IOError *)
  to_excel_ok : nat -> bool;       (* DataFrame(...).to_excel(...) returns *)
  to_excel_opened : nat -> bool    (* if it raises: after it opened the target *)
}.

Inductive event : Type :=
| EGet (page : Z)
| ESleep (secs : Z)
| EMakeDirs (folder : string)
| EOpen (filepath : string)
| EWrite (filepath : string) (rows : list vacancy).

(** What a file holds: the workbook that [DataFrame(rows).to_excel] wrote
    for [rows], whatever its cells are, or what a write that failed after it
    had opened the file left behind. *)
Inductive content : Type :=
| Sheet (rows : list vacancy)
| Partial.

Record world : Type := {
  tick : nat;                              (* external calls made so far *)
  trace : list event;                      (* oldest event first *)
  dirs : list string;                      (* existing directories *)
  files : list (string * content)          (* existing files *)
}.

Definition M (A : Type) : Type := world -> outcome A * world.

Definition ret {A} (a : A) : M A := fun w => (Ok a, w).

Definition raise {A} (e : exn) : M A := fun w => (Raise e, w).

Definition bind {A B} (c : M A) (k : A -> M B) : M B :=
  fun w =>
    match c w with
    | (Ok a, w') => k a w'
    | (Raise e, w') => (Raise e, w')
    end.

Definition lift {A} (o : outcome A) : M A := fun w => (o, w).

Declare Scope world_scope.
Delimit Scope world_scope with world.
Notation "x <- c ;; k" := (bind c (fun x => k))
  (at level 61, c at next level, right associativity) : world_scope.
Notation "c ;;; k" := (bind c (fun _ => k))
  (at level 61, right associativity) : world_scope.

Definition emit (e : event) (w : world) : world :=
  {| tick := tick w; trace := trace w ++ [e]; dirs := dirs w; files := files w |}.

Definition next (w : world) : world :=
  {| tick := S (tick w); trace := trace w; dirs := dirs w; files := files w |}.

(** [time.sleep(secs)] raises ValueError on a negative length and
    OverflowError on a length that is too large. *)
Definition sleep {B : Builtins} (secs : Z) : M unit :=
  fun w =>
    if secs <? 0 then (Raise ValueError, w)
    else if sleep_max <? secs then (Raise OverflowError, w)
    else (Ok tt, emit (ESleep secs) w).

(** [except requests.RequestException]: other exceptions pass through. *)
Definition except_request {A} (body handler : M A) : M A :=
  fun w =>
    match body w with
    | (Raise RequestException, w') => handler w'
    | r => r
    end.

(** [range(lo, hi)] *)
Definition range (lo hi : Z) : list Z :=
  map (fun i => lo + Z.of_nat i) (seq 0 (Z.to_nat (hi - lo))).

(** [needle in hay] for two strings *)
Fixpoint contains (needle hay : string) : bool :=
  if String.prefix needle hay then true
  else
    match hay with
    | EmptyString => false
    | String _ rest => contains needle rest
    end.

(** [page < total_pages]: an int compares with an int or a bool only. *)
Definition py_lt (page : Z) (v : json) : outcome bool :=
  match v with
  | JNum n => Ok (page <? n)
  | JBool b => Ok (page <? (if b then 1 else 0))
  | _ => Raise TypeError
  end.

(** [for item in v]: a list yields its elements, a dict its keys and a str
    its characters; the other values are not iterable.  Every character of a
    str is a str, which the item loop skips ([extract_item] raises on it), so
    how a str is cut into characters is not visible: one piece per byte. *)
Definition py_iter (v : json) : outcome (list json) :=
  match v with
  | JArr l => Ok l
  | JObj kvs => Ok (map (fun kv => JStr (fst kv)) kvs)
  | JStr s => Ok (map (fun c => JStr (String c EmptyString)) (list_ascii_of_string s))
  | _ => Raise TypeError
  end.

Section Program.
Context {B : Builtins}.
Variable E : env.

(** ** fetch_vacancies (lines 70-143) *)

(** *** One attempt: lines 88-99, the body of [try] *)

Inductive flow : Type :=
| Break (data : json)
| Continue.

Definition get_page (page : Z) : M reply :=
  fun w => (Ok (http E (tick w) page), next (emit (EGet page) w)).

(** line 91: [int(response.headers.get('Retry-After', REQUEST_DELAY))] *)
Definition read_retry_after (header : option string) : outcome Z :=
  match header with
  | None => Ok REQUEST_DELAY
  | Some s =>
      match int_of_str s with
      | Some n => Ok n
      | None => Raise ValueError
      end
  end.

Definition try_body (page : Z) : M flow :=
  (r <- get_page page ;;
   match r with
   | NetError => raise RequestException
   | Response status header body =>
       if status =? 429 then
         retry_after <- lift (read_retry_after header) ;;
         sleep retry_after ;;;
         ret Continue
       else if (400 <=? status) && (status <? 600) then
         raise RequestException          (* raise_for_status: HTTPError *)
       else
         match body with
         | None => raise json_decode_error  (* response.json() *)
         | Some data => ret (Break data)
         end
   end)%world.

(** lines 87-105: the attempt with its handler *)
Definition attempt_body (page attempt : Z) : M flow :=
  except_request (try_body page)
    ((if attempt <? MAX_RETRIES then sleep (REQUEST_DELAY * attempt) else ret tt) ;;;
     ret Continue)%world.

(** lines 85-105: [Some data] is [success = True], [None] is [success = False];
    the attempts still to run are the list the loop recurses on. *)
Fixpoint for_attempts (page : Z) (attempts : list Z) : M (option json) :=
  match attempts with
  | [] => ret None
  | attempt :: rest =>
      (f <- attempt_body page attempt ;;
       match f with
       | Break data => ret (Some data)
       | Continue => for_attempts page rest
       end)%world
  end.

Definition fetch_page (page : Z) : M (option json) :=
  for_attempts page (range 1 (MAX_RETRIES + 1)).

(** *** One item: lines 117-132, the body of [try]; [None] is the [continue]
    of the city filter *)

Definition lower_of (v : json) : outcome string :=
  match v with
  | JStr s => Ok (str_lower s)
  | _ => Raise AttributeError
  end.

Definition extract_item (item : json) : outcome (option vacancy) :=
  (area_info <- py_get item "area" (JObj []) ;;
   name <- py_get area_info "name" (JStr "") ;;
   city <- lower_of name ;;
   if negb (contains CITY_KEYWORD city) then Ok None
   else
     v_title <- py_get item "name" (JStr NO_TITLE) ;;
     employer_info <- py_get item "employer" (JObj []) ;;
     v_employer <- py_get employer_info "name" (JStr NO_EMPLOYER) ;;
     salary_info <- py_get item "salary" JNull ;;
     v_salary <- format_salary salary_info ;;
     v_url <- py_get item "alternate_url" (JStr NO_LINK) ;;
     Ok (Some {| title := v_title; employer := v_employer; salary := v_salary;
                 city := city; url := v_url |}))%outcome.

(** lines 116-137: [except Exception] turns every error into a skip *)
Definition process_item (vacancies : list vacancy) (item : json) : list vacancy :=
  match extract_item item with
  | Ok (Some v) => vacancies ++ [v]
  | Ok None => vacancies
  | Raise _ => vacancies
  end.

(** *** The pagination loop *)

Record loop_state : Type := {
  page : Z;
  total_pages : json;
  vacancies : list vacancy
}.

Definition init_state : loop_state :=
  {| page := 0; total_pages := JNum 1; vacancies := [] |}.

(** lines 78-140: one iteration *)
Definition loop_body (st : loop_state) : M loop_state :=
  (fetched <- fetch_page (page st) ;;
   match fetched with
   | None =>
       ret {| page := page st + 1; total_pages := total_pages st;
              vacancies := vacancies st |}
   | Some data =>
       pages <- lift (py_get data "pages" (JNum 0)) ;;
       items <- lift (py_get data "items" (JArr [])) ;;
       item_list <- lift (py_iter items) ;;
       let collected := fold_left process_item item_list (vacancies st) in
       sleep REQUEST_DELAY ;;;
       ret {| page := page st + 1; total_pages := pages; vacancies := collected |}
   end)%world.

(** lines 77-143 *)
Fixpoint fetch_loop (fuel : nat) (st : loop_state) (w : world)
  : option (outcome loop_state * world) :=
  match py_lt (page st) (total_pages st) with
  | Raise e => Some (Raise e, w)
  | Ok false => Some (Ok st, w)
  | Ok true =>
      match fuel with
      | O => None
      | S fuel' =>
          match loop_body st w with
          | (Ok st', w') => fetch_loop fuel' st' w'
          | (Raise e, w') => Some (Raise e, w')
          end
      end
  end.

Definition fetch_vacancies (fuel : nat) (w : world)
  : option (outcome (list vacancy) * world) :=
  match fetch_loop fuel init_state w with
  | Some (Ok st, w') => Some (Ok (vacancies st), w')
  | Some (Raise e, w') => Some (Raise e, w')
  | None => None
  end.

End Program.

(** ** The sink and main (lines 26-51 and 145-173) *)

Definition path_exists (p : string) (w : world) : bool :=
  existsb (String.eqb p) (dirs w)
  || existsb (fun f => String.eqb p (fst f)) (files w).

(** [os.makedirs(folder)], which is taken to succeed. *)
Definition makedirs (folder : string) : M unit :=
  fun w =>
    (Ok tt,
     {| tick := tick w; trace := trace w ++ [EMakeDirs folder];
        dirs := folder :: dirs w; files := files w |}).

(** The file at [p] holds [c] from now on. *)
Definition set_file (p : string) (c : content) (w : world) : world :=
  {| tick := tick w; trace := trace w; dirs := dirs w;
     files := (p, c) :: filter (fun f => negb (String.eqb p (fst f))) (files w) |}.

Section Sink.
Context {B : Builtins}.
Variable E : env.

(** lines 26-31 *)
Definition ensure_folder_exists (filepath : string) : M unit :=
  let folder := path_dirname filepath in
  fun w =>
    if negb (String.eqb folder "") && negb (path_exists folder w)
    then makedirs folder w
    else (Ok tt, w).

(** lines 33-41 *)
Definition is_file_locked (filepath : string) : M bool :=
  fun w =>
    if negb (path_exists filepath w) then (Ok false, w)
    else (Ok (locked E (tick w)), next (emit (EOpen filepath) w)).

Definition time_time : M Z :=
  fun w => (Ok (now E (tick w)), next w).

(** lines 46-51: the loop of [wait_for_file] *)
Fixpoint wait_loop (fuel : nat) (filepath : string) (wait_time total_wait start_time : Z)
  (w : world) : option (outcome bool * world) :=
  match time_time w with
  | (Raise e, w1) => Some (Raise e, w1)
  | (Ok t, w1) =>
      if t - start_time <? total_wait then
        match is_file_locked filepath w1 with
        | (Raise e, w2) => Some (Raise e, w2)
        | (Ok false, w2) => Some (Ok true, w2)
        | (Ok true, w2) =>
            match sleep wait_time w2 with
            | (Raise e, w3) => Some (Raise e, w3)
            | (Ok _, w3) =>
                match fuel with
                | O => None
                | S fuel' => wait_loop fuel' filepath wait_time total_wait start_time w3
                end
            end
        end
      else Some (Ok false, w1)
  end.

(** lines 43-51, with the default arguments of the only call *)
Definition wait_for_file (fuel : nat) (filepath : string) (w : world)
  : option (outcome bool * world) :=
  match time_time w with
  | (Raise e, w1) => Some (Raise e, w1)
  | (Ok start_time, w1) => wait_loop fuel filepath 2 MAX_WAIT_TIME start_time w1
  end.

(** lines 153-158: the write, whose errors are caught.  The call is the
    event.  When it returns, the file holds the workbook of the rows; when it
    raises, the file is as it was if the error came before the target was
    opened, and partly written otherwise. *)
Definition to_excel (rows : list vacancy) (filepath : string) : M unit :=
  fun w =>
    let w1 := next (emit (EWrite filepath rows) w) in
    if to_excel_ok E (tick w) then (Ok tt, set_file filepath (Sheet rows) w1)
    else if to_excel_opened E (tick w) then (Ok tt, set_file filepath Partial w1)
    else (Ok tt, w1).

(** lines 145-158 *)
Definition save_to_excel (fuel : nat) (rows : list vacancy) (filepath : string)
  (w : world) : option (outcome unit * world) :=
  match ensure_folder_exists filepath w with
  | (Raise e, w1) => Some (Raise e, w1)
  | (Ok _, w1) =>
      if path_exists filepath w1 then
        match wait_for_file fuel filepath w1 with
        | None => None
        | Some (Raise e, w2) => Some (Raise e, w2)
        | Some (Ok false, w2) => Some (Ok tt, w2)
        | Some (Ok true, w2) => Some (to_excel rows filepath w2)
        end
      else Some (to_excel rows filepath w1)
  end.

(** lines 160-173: [except Exception] lets nothing out, so [main] returns
    the world it leaves, and whether the critical error was logged. *)
Inductive exit : Type :=
| Finished
| CriticalError (e : exn).

Definition main (fuel : nat) (w : world) : option (exit * world) :=
  match fetch_vacancies E fuel w with
  | None => None
  | Some (Raise e, w1) => Some (CriticalError e, w1)
  | Some (Ok [], w1) => Some (Finished, w1)
  | Some (Ok rows, w1) =>
      match save_to_excel fuel rows EXCEL_PATH w1 with
      | None => None
      | Some (Raise e, w2) => Some (CriticalError e, w2)
      | Some (Ok _, w2) => Some (Finished, w2)
      end
  end.

End Sink.

(** ** A concrete instance of the built-ins

    It agrees with CPython on the inputs used below (ASCII and Russian
    letters, decimal literals, Windows paths) and lets the code be evaluated
    on concrete inputs.  The theorems hold for every instance. *)

(** Lower-casing of UTF-8 bytes: A-Z, and the two-byte Cyrillic capitals
    U+0400..U+042F, whose lead byte is 0xD0. *)
Fixpoint lower_bytes (l : list N) : list N :=
  match l with
  | [] => []
  | a :: rest =>
      if (a =? 208)%N then
        match rest with
        | [] => [a]
        | b :: rest' =>
            (if (128 <=? b)%N && (b <=? 143)%N then [209; b + 16]
             else if (144 <=? b)%N && (b <=? 159)%N then [208; b + 32]
             else if (160 <=? b)%N && (b <=? 175)%N then [209; b - 32]
             else [a; b])%N ++ lower_bytes rest'
        end
      else if (65 <=? a)%N && (a <=? 90)%N then (a + 32)%N :: lower_bytes rest
      else a :: lower_bytes rest
  end.

Definition model_lower (s : string) : string :=
  string_of_list_ascii
    (map ascii_of_N (lower_bytes (map N_of_ascii (list_ascii_of_string s)))).

Definition model_repr (s : string) : string := "'" ++ s ++ "'".

Fixpoint digits_value (acc : Z) (l : list ascii) : option Z :=
  match l with
  | [] => Some acc
  | c :: rest =>
      let n := Z.of_N (N_of_ascii c) in
      if (48 <=? n) && (n <=? 57) then digits_value (10 * acc + (n - 48)) rest
      else None
  end.

(** Decimal literals with an optional sign. *)
Definition model_int (s : string) : option Z :=
  match list_ascii_of_string s with
  | [] => None
  | c :: rest =>
      if Ascii.eqb c "-" then
        match rest with
        | [] => None
        | _ => option_map Z.opp (digits_value 0 rest)
        end
      else if Ascii.eqb c "+" then
        match rest with
        | [] => None
        | _ => digits_value 0 rest
        end
      else digits_value 0 (c :: rest)
  end.

(** The part of a path before its last separator. *)
Fixpoint dirname_bytes (l : list ascii) : option (list ascii) :=
  match l with
  | [] => None
  | c :: rest =>
      match dirname_bytes rest with
      | Some d => Some (c :: d)
      | None => if Ascii.eqb c "\" || Ascii.eqb c "/" then Some [] else None
      end
  end.

Definition model_dirname (s : string) : string :=
  match dirname_bytes (list_ascii_of_string s) with
  | Some d => string_of_list_ascii d
  | None => ""
  end.

Definition model_builtins : Builtins :=
  {| str_lower := model_lower; str_repr := model_repr;
     int_of_str := model_int; path_dirname := model_dirname;
     json_decode_error := RequestException;
     sleep_max := 9223372036;
     sleep_max_ok := fun H : (4 ?= 9223372036) = Gt =>
                       match H in _ = c return match c with Lt => True | _ => False end
                       with eq_refl => I end |}.

Definition world0 : world :=
  {| tick := 0; trace := []; dirs := []; files := [] |}.

(** ** The notions the specification speaks of *)

(** *** SalaryRange and the branch table of the formatter *)

Record SalaryRange : Type := {
  sr_from : option Z;
  sr_to : option Z;
  sr_currency : option string
}.

Definition field (k : string) (v : option json) : list (string * json) :=
  match v with
  | Some x => [(k, x)]
  | None => []
  end.

(** The dict that carries a SalaryRange.  An absent bound is a missing key,
    or the key with [null], which is how the API sends it ([nulls]). *)
Definition bound_field (nulls : bool) (k : string) (b : option Z) : list (string * json) :=
  match b with
  | Some n => [(k, JNum n)]
  | None => if nulls then [(k, JNull)] else []
  end.

Definition encode_salary (nulls : bool) (s : option SalaryRange) : json :=
  match s with
  | None => JNull
  | Some r =>
      JObj (bound_field nulls "from" (sr_from r)
            ++ bound_field nulls "to" (sr_to r)
            ++ field "currency" (option_map JStr (sr_currency r)))
  end.

(** The table as the specification words it: a bound is present when it is
    given. *)
Definition salary_table (s : option SalaryRange) : string :=
  match s with
  | None => NOT_SPECIFIED
  | Some r =>
      let currency := match sr_currency r with Some c => c | None => "" end in
      match sr_from r, sr_to r with
      | Some f, Some t => dec f ++ " - " ++ dec t ++ " " ++ currency
      | Some f, None => "от " ++ dec f ++ " " ++ currency
      | None, Some t => "до " ++ dec t ++ " " ++ currency
      | None, None => NOT_SPECIFIED
      end
  end.

(** A bound that the code takes as present: given and not zero. *)
Definition nonzero (b : option Z) : option Z :=
  match b with
  | Some n => if n =? 0 then None else Some n
  | None => None
  end.

Definition nonzero_bounds (s : option SalaryRange) : option SalaryRange :=
  option_map
    (fun r => {| sr_from := nonzero (sr_from r); sr_to := nonzero (sr_to r);
                 sr_currency := sr_currency r |})
    s.

(** *** The city of an item *)

(** The city string the extractor reads: [area.name], with the empty string
    when [area] or [name] is absent; [None] when it cannot be read. *)
Definition area_name (item : json) : option string :=
  match item with
  | JObj kvs =>
      match assoc "area" kvs with
      | None => Some ""
      | Some (JObj area) =>
          match assoc "name" area with
          | None => Some ""
          | Some (JStr s) => Some s
          | Some _ => None
          end
      | Some _ => None
      end
  | _ => None
  end.

Definition city_ok (v : vacancy) : Prop :=
  contains CITY_KEYWORD (city v) = true.

(** *** Replies and events *)

Definition is_request_exception (e : exn) : bool :=
  match e with
  | RequestException => true
  | _ => false
  end.

(** The attempt ends in [except requests.RequestException]: a network
    error, an HTTP error status other than 429, or a body that is not JSON
    where [requests] reports that as a RequestException. *)
Definition request_fails {B : Builtins} (r : reply) : bool :=
  match r with
  | NetError => true
  | Response status _ body =>
      negb (status =? 429)
      && (((400 <=? status) && (status <? 600))
          || match body with
             | None => is_request_exception json_decode_error
             | Some _ => false
             end)
  end.

(** The reply is a success carrying [data]. *)
Definition reply_data (r : reply) : option json :=
  match r with
  | NetError => None
  | Response status _ body =>
      if (status =? 429) || ((400 <=? status) && (status <? 600)) then None
      else body
  end.

(** The [pages] values a reply reports are at most [bound]. *)
Definition pages_at_most (bound : Z) (r : reply) : Prop :=
  forall kvs n,
    reply_data r = Some (JObj kvs) -> assoc "pages" kvs = Some (JNum n) -> n <= bound.

Definition is_get (p : Z) (e : event) : Prop := e = EGet p.

Definition net_event_from (p : Z) (e : event) : Prop :=
  match e with
  | EGet q => p <= q
  | ESleep _ => True
  | _ => False
  end.

(** [w'] is reached from [w] by events that all satisfy [P], with the file
    system untouched. *)
Definition reaches (P : event -> Prop) (w w' : world) : Prop :=
  dirs w' = dirs w /\ files w' = files w /\ (tick w <= tick w')%nat /\
  exists evs, trace w' = (trace w ++ evs)%list /\ Forall P evs.

(** A computation whose events all satisfy [P] and that leaves the file
    system alone. *)
Definition frames {A} (P : event -> Prop) (c : M A) : Prop :=
  forall w o w', c w = (o, w') -> reaches P w w'.

(** The world after the request of page [p]. *)
Definition after_get (p : Z) (w : world) : world := next (emit (EGet p) w).

(** C1 as the specification words it: a 429 reply leaves the attempts that
    remain as they were, the attempt that received it included. *)
Definition rate_limit_keeps_attempt {B : Builtins} (E : env) : Prop :=
  forall p attempt rest w header body secs,
    http E (tick w) p = Response 429 header body ->
    read_retry_after header = Ok secs ->
    0 <= secs <= sleep_max ->
    for_attempts E p (attempt :: rest) w
    = for_attempts E p (attempt :: rest) (emit (ESleep secs) (after_get p w)).

(** C4 as the specification words it: an iteration that returns ends with
    the inter-page sleep. *)
Definition politeness_sleep_after {B : Builtins} (E : env) (st : loop_state) (w : world)
  : Prop :=
  forall st' w',
    loop_body E st w = (Ok st', w') ->
    exists evs, trace w' = (trace w ++ evs ++ [ESleep REQUEST_DELAY])%list.

(** C6 as the specification words it: every run ends. *)
Definition terminates {B : Builtins} (E : env) (w : world) : Prop :=
  exists fuel r, fetch_vacancies E fuel w = Some r.

(** A request, or a sleep: no file operation. *)
Definition is_net_event (e : event) : Prop :=
  match e with
  | EGet _ | ESleep _ => True
  | _ => False
  end.

(** The attempt that receives the reply goes on to the next attempt: the
    request fails, or the reply is a 429 whose wait can be read and is a
    length that [time.sleep] accepts. *)
Definition attempt_fails {B : Builtins} (r : reply) : bool :=
  request_fails r
  || match r with
     | NetError => false
     | Response status header _ =>
         (status =? 429)
         && match read_retry_after header with
            | Ok secs => (0 <=? secs) && (secs <=? sleep_max)
            | Raise _ => false
            end
     end.

(** The state after a skipped page. *)
Definition skip_page (st : loop_state) : loop_state :=
  {| page := page st + 1; total_pages := total_pages st; vacancies := vacancies st |}.

(** The loop bound is at most [m] when it is a number. *)
Definition total_at_most (m : Z) (st : loop_state) : Prop :=
  forall n, total_pages st = JNum n -> n <= m.

(** *** Example inputs *)

Definition ok_page (pages : Z) (items : list json) : reply :=
  Response 200 None (Some (JObj [("items", JArr items); ("pages", JNum pages)])).

Definition too_many_requests (retry_after : option string) : reply :=
  Response 429 retry_after None.

Definition item_syktyvkar : json :=
  JObj [("name", JStr "Программист");
        ("area", JObj [("id", JStr "1"); ("name", JStr "Сыктывкар")]);
        ("employer", JObj [("name", JStr "ООО Ромашка")]);
        ("salary", JObj [("from", JNum 50000); ("to", JNull); ("currency", JStr "RUR")]);
        ("alternate_url", JStr "https://hh.ru/vacancy/1")].

Definition item_bare : json :=
  JObj [("name", JStr "Курьер"); ("area", JObj [("name", JStr "Сыктывкар")])].

Definition item_null_employer : json :=
  JObj [("name", JStr "Курьер");
        ("area", JObj [("name", JStr "Сыктывкар")]);
        ("employer", JNull)].

Definition item_moscow : json :=
  JObj [("name", JStr "Аналитик"); ("area", JObj [("name", JStr "Москва")])].

Definition salary_zero_from : SalaryRange :=
  {| sr_from := Some 0; sr_to := Some 100000; sr_currency := Some "RUR" |}.

Definition constant_env (answer : nat -> Z -> reply) : env :=
  {| http := answer; now := fun n => Z.of_nat n; locked := fun _ => false;
     to_excel_ok := fun _ => true; to_excel_opened := fun _ => false |}.

(** Nothing answers. *)
Definition env_down : env := constant_env (fun _ _ => NetError).

(** Three 429 replies without a header, then the page. *)
Definition env_429_thrice : env :=
  constant_env (fun n _ => if (n <? 3)%nat then too_many_requests None
                           else ok_page 1 [item_syktyvkar]).

(** A 429 reply whose Retry-After is an HTTP date. *)
Definition env_retry_date : env :=
  constant_env (fun _ _ => too_many_requests (Some "Wed, 21 Oct 2015 07:28:00 GMT")).

(** Every reply reports one page more than there was before. *)
Definition env_growing : env :=
  constant_env (fun _ p => ok_page (p + 2) []).

(** Two pages: page 0 holds [items], page 1 does not answer. *)
Definition env_two_pages (items : list json) : env :=
  constant_env (fun _ p => if p =? 0 then ok_page 2 items else NetError).

(** Three pages, of which page 1 does not answer. *)
Definition env_page1_down : env :=
  constant_env (fun _ p => if p =? 1 then NetError else ok_page 3 []).

(** *** Notions for the properties of the remaining code *)

Definition is_dict (v : json) : bool :=
  match v with
  | JObj _ => true
  | _ => false
  end.

Definition get_or (default : json) (v : option json) : json :=
  match v with
  | Some x => x
  | None => default
  end.

(** The records that the items of one page add, in the order of the items. *)
Definition extracted {B : Builtins} (items : list json) : list vacancy :=
  flat_map (fun item => match extract_item item with
                        | Ok (Some v) => [v]
                        | _ => []
                        end) items.

(** The page indices that a list of events requests, in order. *)
Fixpoint gets (evs : list event) : list Z :=
  match evs with
  | [] => []
  | EGet p :: rest => p :: gets rest
  | _ :: rest => gets rest
  end.

(** The events of [k] failed requests of page [p], each followed by its
    backoff sleep: [k] is less than MAX_RETRIES. *)
Fixpoint backoff_events (p : Z) (k : nat) : list event :=
  match k with
  | O => []
  | S k' => backoff_events p k' ++ [EGet p; ESleep (REQUEST_DELAY * Z.of_nat k)]
  end.

(** What the file at [p] holds, when it exists. *)
Fixpoint file_content (p : string) (fs : list (string * content)) : option content :=
  match fs with
  | [] => None
  | (q, c) :: rest => if String.eqb p q then Some c else file_content p rest
  end.

(** The calls of the writer among a list of events, in order. *)
Fixpoint writes (evs : list event) : list (string * list vacancy) :=
  match evs with
  | [] => []
  | EWrite p rows :: rest => (p, rows) :: writes rest
  | _ :: rest => writes rest
  end.

Definition is_write (e : event) : Prop :=
  match e with
  | EWrite _ _ => True
  | _ => False
  end.

(** An open, or a sleep: what waiting for a file consists of. *)
Definition is_wait_event (e : event) : Prop :=
  match e with
  | EOpen _ | ESleep _ => True
  | _ => False
  end.


(** The events of the pages [first], ..., [first + count - 1] when each is
    answered at its first request: the request and the inter-page sleep. *)
Fixpoint page_events (first : Z) (count : nat) : list event :=
  match count with
  | O => []
  | S count' => EGet first :: ESleep REQUEST_DELAY :: page_events (first + 1) count'
  end.

(** The records of the pages [first], ..., [first + count - 1], where
    [items_of p] are the items of page [p]. *)
Fixpoint page_records {B : Builtins} (items_of : Z -> list json) (first : Z) (count : nat)
  : list vacancy :=
  match count with
  | O => []
  | S count' => extracted (items_of first) ++ page_records items_of (first + 1) count'
  end.

(** A server that answers every request of page [p] with [pages] pages and
    the items [items_of p]. *)
Definition env_pages (pages : Z) (items_of : Z -> list json) : env :=
  constant_env (fun _ p => ok_page pages (items_of p)).

(** The clock of [constant_env] with the file locked at every open. *)
Definition env_locked : env :=
  {| http := fun _ _ => NetError; now := fun n => Z.of_nat n;
     locked := fun _ => true; to_excel_ok := fun _ => true;
     to_excel_opened := fun _ => false |}.

Definition world_with_file (p : string) (rows : list vacancy) : world :=
  {| tick := 0; trace := []; dirs := []; files := [(p, Sheet rows)] |}.

(** The first request is not answered, the later ones are. *)
Definition env_flaky : env :=
  constant_env (fun n _ => if (n <? 1)%nat then NetError else ok_page 1 [item_syktyvkar]).


(** The values that compare with the page index: an int, or a bool. *)
Definition is_int (v : json) : bool :=
  match v with
  | JNum _ | JBool _ => true
  | _ => false
  end.

(** The values that a [for] loop iterates over. *)
Definition is_iterable (v : json) : bool :=
  match v with
  | JArr _ | JObj _ | JStr _ => true
  | _ => false
  end.

(** Two pages, one item on the first and two on the second. *)
Definition two_page_items (p : Z) : list json :=
  if p =? 0 then [item_syktyvkar] else [item_moscow; item_bare].

(** A reply without the [pages] key. *)
Definition env_no_pages : env :=
  constant_env (fun _ _ =>
    Response 200 None (Some (JObj [("items", JArr [item_syktyvkar])]))).

(** A reply whose body is a JSON list. *)
Definition env_list_body : env :=
  constant_env (fun _ _ => Response 200 None (Some (JArr []))).

(** A reply whose [pages] is null. *)
Definition env_null_pages : env :=
  constant_env (fun _ _ =>
    Response 200 None
      (Some (JObj [("items", JArr [item_syktyvkar]); ("pages", JNull)]))).

(** Three requests without an answer, then five pages. *)
Definition env_late : env :=
  constant_env (fun n _ => if (n <? 3)%nat then NetError else ok_page 5 [item_syktyvkar]).

Definition vacancy_syktyvkar : vacancy :=
  {| title := JStr "Программист"; employer := JStr "ООО Ромашка";
     salary := "от 50000 RUR"; city := "сыктывкар";
     url := JStr "https://hh.ru/vacancy/1" |}.

Definition vacancy_bare : vacancy :=
  {| title := JStr "Курьер"; employer := JStr NO_EMPLOYER;
     salary := NOT_SPECIFIED; city := "сыктывкар"; url := JStr NO_LINK |}.

(** * Properties *)

(** ** Sleeping *)

Lemma sleep_accepts {B : Builtins} (secs : Z) (w : world) :
  0 <= secs <= sleep_max -> sleep secs w = (Ok tt, emit (ESleep secs) w).
Proof.
  intros [Hlo Hhi]. unfold sleep.
  replace (secs <? 0) with false by (symmetry; apply Z.ltb_ge; lia).
  replace (sleep_max <? secs) with false by (symmetry; apply Z.ltb_ge; lia).
  reflexivity.
Qed.

(** The sleeps that the code asks for by itself are accepted. *)
Lemma sleep_short {B : Builtins} (secs : Z) (w : world) :
  0 <= secs <= 4 -> sleep secs w = (Ok tt, emit (ESleep secs) w).
Proof.
  intros Hsecs. apply sleep_accepts. pose proof sleep_max_ok. lia.
Qed.

Lemma sleep_cases {B : Builtins} (secs : Z) (w : world) :
  sleep secs w = (Ok tt, emit (ESleep secs) w)
  \/ sleep secs w = (Raise ValueError, w)
  \/ sleep secs w = (Raise OverflowError, w).
Proof.
  unfold sleep. destruct (secs <? 0); [now right; left |].
  destruct (sleep_max <? secs); [now right; right | now left].
Qed.

(** ** The world only grows *)

Lemma reaches_refl (P : event -> Prop) (w : world) : reaches P w w.
Proof.
  repeat split; try lia.
  exists []. split; [now rewrite app_nil_r | constructor].
Qed.

Lemma reaches_trans (P : event -> Prop) (w1 w2 w3 : world) :
  reaches P w1 w2 -> reaches P w2 w3 -> reaches P w1 w3.
Proof.
  intros (Hd1 & Hf1 & Ht1 & evs1 & He1 & HP1) (Hd2 & Hf2 & Ht2 & evs2 & He2 & HP2).
  repeat split; try congruence; try lia.
  exists (evs1 ++ evs2)%list. split.
  - now rewrite He2, He1, app_assoc.
  - apply Forall_app. now split.
Qed.

Lemma reaches_weaken (P Q : event -> Prop) (w w' : world) :
  (forall e, P e -> Q e) -> reaches P w w' -> reaches Q w w'.
Proof.
  intros HPQ (Hd & Hf & Ht & evs & He & HP).
  repeat split; trivial.
  exists evs. split; trivial.
  eapply Forall_impl; eauto.
Qed.

Lemma reaches_emit (P : event -> Prop) (e : event) (w : world) :
  P e -> reaches P w (emit e w).
Proof.
  intros He. repeat split; simpl; try lia.
  exists [e]. split; trivial. now constructor.
Qed.

Lemma reaches_next (P : event -> Prop) (w : world) : reaches P w (next w).
Proof.
  repeat split; simpl; try lia.
  exists []. split; [now rewrite app_nil_r | constructor].
Qed.

Lemma frames_ret {A} (P : event -> Prop) (a : A) : frames P (ret a).
Proof. intros w o w' H. inversion H; subst. apply reaches_refl. Qed.

Lemma frames_raise {A} (P : event -> Prop) (e : exn) : frames P (@raise A e).
Proof. intros w o w' H. inversion H; subst. apply reaches_refl. Qed.

Lemma frames_lift {A} (P : event -> Prop) (o : outcome A) : frames P (lift o).
Proof. intros w o' w' H. inversion H; subst. apply reaches_refl. Qed.

Lemma frames_bind {A C} (P : event -> Prop) (c : M A) (k : A -> M C) :
  frames P c -> (forall a, frames P (k a)) -> frames P (bind c k).
Proof.
  intros Hc Hk w o w' H. unfold bind in H.
  destruct (c w) as [[a | e] w1] eqn:Hcw.
  - eapply reaches_trans; [eapply Hc; eauto | eapply Hk; eauto].
  - inversion H; subst. eapply Hc; eauto.
Qed.

Lemma frames_sleep {B : Builtins} (P : event -> Prop) (secs : Z) :
  P (ESleep secs) -> frames P (sleep secs).
Proof.
  intros HP w o w' H.
  destruct (sleep_cases secs w) as [Hs | [Hs | Hs]]; rewrite Hs in H;
    inversion H; subst; [now apply reaches_emit | apply reaches_refl ..].
Qed.

Lemma frames_except {A} (P : event -> Prop) (body handler : M A) :
  frames P body -> frames P handler -> frames P (except_request body handler).
Proof.
  intros Hb Hh w o w' H. unfold except_request in H.
  destruct (body w) as [[a | e] w1] eqn:Hbw.
  - inversion H; subst. eapply Hb; eauto.
  - destruct e;
      [ eapply reaches_trans; [exact (Hb _ _ _ Hbw) | exact (Hh _ _ _ H)]
      | inversion H; subst; exact (Hb _ _ _ Hbw) .. ].
Qed.

Section Frames.
Context {B : Builtins}.
Variable E : env.

Lemma frames_get_page (p : Z) : frames (net_event_from p) (get_page E p).
Proof.
  intros w o w' H. unfold get_page in H. inversion H; subst.
  eapply reaches_trans; [apply reaches_emit | apply reaches_next].
  simpl. lia.
Qed.

Lemma frames_try_body (p : Z) : frames (net_event_from p) (try_body E p).
Proof.
  unfold try_body. apply frames_bind; [apply frames_get_page |].
  intros [| status header body]; [apply frames_raise |].
  destruct (status =? 429).
  - apply frames_bind; [apply frames_lift |]. intros secs.
    apply frames_bind; [now apply frames_sleep | intros; apply frames_ret].
  - destruct ((400 <=? status) && (status <? 600)); [apply frames_raise |].
    destruct body; [apply frames_ret | apply frames_raise].
Qed.

Lemma frames_attempt_body (p attempt : Z) :
  frames (net_event_from p) (attempt_body E p attempt).
Proof.
  unfold attempt_body. apply frames_except; [apply frames_try_body |].
  apply frames_bind; [| intros; apply frames_ret].
  destruct (attempt <? MAX_RETRIES); [now apply frames_sleep | apply frames_ret].
Qed.

Lemma frames_for_attempts (p : Z) (attempts : list Z) :
  frames (net_event_from p) (for_attempts E p attempts).
Proof.
  induction attempts as [| a rest IH]; simpl.
  - apply frames_ret.
  - apply frames_bind; [apply frames_attempt_body |].
    intros [data |]; [apply frames_ret | exact IH].
Qed.

Lemma frames_loop_body (st : loop_state) :
  frames (net_event_from (page st)) (loop_body E st).
Proof.
  unfold loop_body.
  apply frames_bind; [apply frames_for_attempts |].
  intros [data |]; [| apply frames_ret].
  apply frames_bind; [apply frames_lift | intros pages].
  apply frames_bind; [apply frames_lift | intros items].
  apply frames_bind; [apply frames_lift | intros item_list].
  apply frames_bind; [now apply frames_sleep | intros; apply frames_ret].
Qed.

(** An iteration that returns has moved to the next page index. *)
Lemma loop_body_page (st st' : loop_state) (w w' : world) :
  loop_body E st w = (Ok st', w') -> page st' = page st + 1.
Proof.
  unfold loop_body, bind. intros H.
  destruct (fetch_page E (page st) w) as [[[data |] | e] w1]; try discriminate.
  - unfold lift in H.
    destruct (py_get data "pages" (JNum 0)); try discriminate.
    destruct (py_get data "items" (JArr [])); try discriminate.
    destruct (py_iter a0); try discriminate.
    destruct (sleep REQUEST_DELAY w1) as [[u | e] w2]; try discriminate.
    unfold ret in H. now inversion H; subst.
  - unfold ret in H. now inversion H; subst.
Qed.

(** From the page index [page st] on, a run requests no earlier page. *)
Lemma fetch_loop_reaches (fuel : nat) :
  forall st w o w',
    fetch_loop E fuel st w = Some (o, w') ->
    reaches (net_event_from (page st)) w w'.
Proof.
  induction fuel as [| fuel IH]; intros st w o w' H; simpl in H.
  - destruct (py_lt (page st) (total_pages st)) as [[|] | e]; inversion H; subst;
      apply reaches_refl.
  - destruct (py_lt (page st) (total_pages st)) as [[|] | e];
      try (inversion H; subst; apply reaches_refl).
    destruct (loop_body E st w) as [[st1 | e] w1] eqn:Hbody.
    + eapply reaches_trans; [eapply frames_loop_body; eauto |].
      eapply reaches_weaken; [| eapply IH; eauto].
      intros ev. rewrite (loop_body_page _ _ _ _ Hbody).
      destruct ev; simpl; trivial. lia.
    + inversion H; subst. eapply frames_loop_body; eauto.
Qed.

End Frames.

(** ** The salary formatter *)

Section Formatter.
Context {B : Builtins}.

(** C2, as the code has it: [format_salary] returns a string for every
    optional SalaryRange, and the string is the one of the branch table in
    which a bound counts as present when it is given and is not zero: the
    placeholder when no bound is present, "от {from} {currency}" or
    "до {to} {currency}" when one is, "{from} - {to} {currency}" when both are;
    an absent currency is the empty string, which leaves the trailing space. *)
Theorem format_salary_table (nulls : bool) (s : option SalaryRange) :
  format_salary (encode_salary nulls s) = Ok (salary_table (nonzero_bounds s)).
Proof.
  destruct s as [[f t c] |]; [| reflexivity].
  destruct f as [f |], t as [t |], c as [c |], nulls;
    unfold format_salary, encode_salary, nonzero_bounds, salary_table, nonzero;
    cbn -[Z.eqb dec append];
    try destruct (f =? 0); try destruct (t =? 0); reflexivity.
Qed.

End Formatter.

(** C2 as stated fails on a bound that is given as 0: the code takes it as
    absent. *)
Lemma format_salary_zero_bound :
  format_salary (B := model_builtins) (encode_salary false (Some salary_zero_from))
    = Ok "до 100000 RUR"
  /\ format_salary (B := model_builtins) (encode_salary false (Some salary_zero_from))
    <> Ok (salary_table (Some salary_zero_from)).
Proof. split; [reflexivity | discriminate]. Qed.

(** ** The record extractor *)

Section Extractor.
Context {B : Builtins}.

(** The city string of an item decides the first three steps of the
    extraction. *)
Lemma extract_item_city (item : json) :
  match area_name item with
  | Some s =>
      (area_info <- py_get item "area" (JObj []) ;;
       name <- py_get area_info "name" (JStr "") ;;
       lower_of name)%outcome = Ok (str_lower s)
  | None =>
      exists e, (area_info <- py_get item "area" (JObj []) ;;
                 name <- py_get area_info "name" (JStr "") ;;
                 lower_of name)%outcome = Raise e
  end.
Proof.
  destruct item as [| b | n | s | l | kvs]; cbn -[assoc]; try (eexists; reflexivity).
  destruct (assoc "area" kvs) as [[| b | n | s | l | area] |]; cbn -[assoc];
    try (eexists; reflexivity).
  destruct (assoc "name" area) as [[| b | n | s | l | o] |]; cbn;
    try (eexists; reflexivity); reflexivity.
Qed.

Lemma py_get_obj (kvs : list (string * json)) (k : string) (d : json) :
  py_get (JObj kvs) k d = Ok (match assoc k kvs with Some v => v | None => d end).
Proof. unfold py_get. now destruct (assoc k kvs). Qed.

Lemma extract_item_unfold (item : json) :
  extract_item item =
  (city <- (area_info <- py_get item "area" (JObj []) ;;
            name <- py_get area_info "name" (JStr "") ;;
            lower_of name) ;;
   if negb (contains CITY_KEYWORD city) then Ok None
   else
     v_title <- py_get item "name" (JStr NO_TITLE) ;;
     employer_info <- py_get item "employer" (JObj []) ;;
     v_employer <- py_get employer_info "name" (JStr NO_EMPLOYER) ;;
     salary_info <- py_get item "salary" JNull ;;
     v_salary <- format_salary salary_info ;;
     v_url <- py_get item "alternate_url" (JStr NO_LINK) ;;
     Ok (Some {| title := v_title; employer := v_employer; salary := v_salary;
                 city := city; url := v_url |}))%outcome.
Proof.
  unfold extract_item, obind.
  destruct (py_get item "area" (JObj [])); trivial.
  destruct (py_get a "name" (JStr "")); trivial.
Qed.

(** An item whose city does not hold the keyword, or cannot be read, adds
    nothing. *)
Lemma process_item_excluded (item : json) (vs : list vacancy) :
  (forall s, area_name item = Some s -> contains CITY_KEYWORD (str_lower s) = false) ->
  process_item vs item = vs.
Proof.
  intros Hcity. unfold process_item. rewrite extract_item_unfold.
  pose proof (extract_item_city item) as Hc.
  destruct (area_name item) as [s |].
  - rewrite Hc. unfold obind at 1. now rewrite (Hcity s eq_refl).
  - destruct Hc as [e Hc]. now rewrite Hc.
Qed.

(** A record that is produced carries the lowercased city of its item, and
    that city holds the keyword. *)
Lemma extract_item_some (item : json) (v : vacancy) :
  extract_item item = Ok (Some v) ->
  exists s, area_name item = Some s /\ city v = str_lower s /\ city_ok v.
Proof.
  rewrite extract_item_unfold.
  pose proof (extract_item_city item) as Hc.
  destruct (area_name item) as [s |].
  - rewrite Hc. unfold obind at 1.
    destruct (contains CITY_KEYWORD (str_lower s)) eqn:Hin; cbn [negb]; [| discriminate].
    unfold obind.
    destruct (py_get item "name" (JStr NO_TITLE)); try discriminate.
    destruct (py_get item "employer" (JObj [])); try discriminate.
    destruct (py_get a0 "name" (JStr NO_EMPLOYER)); try discriminate.
    destruct (py_get item "salary" JNull); try discriminate.
    destruct (format_salary a2); try discriminate.
    destruct (py_get item "alternate_url" (JStr NO_LINK)); try discriminate.
    intros H. inversion H; subst. exists s. repeat split; trivial.
  - destruct Hc as [e Hc]. rewrite Hc. discriminate.
Qed.

Lemma process_item_city_ok (vs : list vacancy) (item : json) :
  Forall city_ok vs -> Forall city_ok (process_item vs item).
Proof.
  intros Hvs. unfold process_item.
  destruct (extract_item item) as [[v |] | e] eqn:Hex; trivial.
  apply Forall_app. split; trivial.
  constructor; [| constructor].
  now destruct (extract_item_some _ _ Hex) as (s & _ & _ & Hok).
Qed.

Lemma fold_process_city_ok (items : list json) :
  forall vs, Forall city_ok vs -> Forall city_ok (fold_left process_item items vs).
Proof.
  induction items as [| item rest IH]; intros vs Hvs; simpl; trivial.
  apply IH. now apply process_item_city_ok.
Qed.

(** C3, as the code has it: an item that passes the city filter, whose
    employer is missing or an object and whose salary can be formatted, is
    not skipped; its record holds the placeholder for each of the name, the
    employer and the link whose key is missing, and the salary placeholder
    when the salary is missing or null. *)
Theorem extract_item_defaults
  (kvs area : list (string * json)) (name : string) (vs : list vacancy) :
  assoc "area" kvs = Some (JObj area) ->
  assoc "name" area = Some (JStr name) ->
  contains CITY_KEYWORD (str_lower name) = true ->
  (assoc "employer" kvs = None \/ exists e, assoc "employer" kvs = Some (JObj e)) ->
  (exists s, format_salary (match assoc "salary" kvs with
                            | Some x => x
                            | None => JNull
                            end) = Ok s) ->
  exists v,
    extract_item (JObj kvs) = Ok (Some v) /\
    process_item vs (JObj kvs) = (vs ++ [v])%list /\
    city v = str_lower name /\
    (assoc "name" kvs = None -> title v = JStr NO_TITLE) /\
    (assoc "employer" kvs = None -> employer v = JStr NO_EMPLOYER) /\
    (assoc "salary" kvs = None \/ assoc "salary" kvs = Some JNull ->
     salary v = NOT_SPECIFIED) /\
    (assoc "alternate_url" kvs = None -> url v = JStr NO_LINK).
Proof.
  intros Harea Hname Hin Hemp [s Hsal].
  assert (Hex : exists v,
             extract_item (JObj kvs) = Ok (Some v) /\
             city v = str_lower name /\
             (assoc "name" kvs = None -> title v = JStr NO_TITLE) /\
             (assoc "employer" kvs = None -> employer v = JStr NO_EMPLOYER) /\
             salary v = s /\
             (assoc "alternate_url" kvs = None -> url v = JStr NO_LINK)).
  { unfold extract_item. rewrite !py_get_obj, Harea. cbn [obind].
    rewrite py_get_obj, Hname. cbn [obind lower_of].
    rewrite Hin. cbn [negb]. rewrite Hsal. cbn [obind].
    destruct Hemp as [He | [e He]]; rewrite He; rewrite py_get_obj; cbn [obind];
      (eexists; split; [reflexivity |]; cbn [title employer salary city url];
       repeat split; trivial; intros H; try discriminate; rewrite H; reflexivity). }
  destruct Hex as (v & Hv & Hc & Ht & He & Hs & Hu).
  exists v. repeat split; trivial.
  - unfold process_item. now rewrite Hv.
  - intros [Hnone | Hnull]; rewrite Hs.
    + rewrite Hnone in Hsal. cbn in Hsal. congruence.
    + rewrite Hnull in Hsal. cbn in Hsal. congruence.
Qed.

End Extractor.

(** C3 as stated fails on an employer that is present but null: reading its
    name raises, the error is caught and the item is skipped. *)
Lemma extract_item_null_employer :
  area_name item_null_employer = Some "Сыктывкар"
  /\ contains CITY_KEYWORD (model_lower "Сыктывкар") = true
  /\ extract_item (B := model_builtins) item_null_employer = Raise AttributeError
  /\ process_item (B := model_builtins) [] item_null_employer = [].
Proof. repeat split; reflexivity. Qed.

Lemma extract_item_defaults_witness :
  exists v,
    extract_item (B := model_builtins) item_bare = Ok (Some v) /\
    process_item (B := model_builtins) [] item_bare = [v] /\
    city v = "сыктывкар" /\
    employer v = JStr NO_EMPLOYER /\
    salary v = NOT_SPECIFIED /\
    url v = JStr NO_LINK.
Proof.
  destruct (extract_item_defaults (B := model_builtins)
              [("name", JStr "Курьер"); ("area", JObj [("name", JStr "Сыктывкар")])]
              [("name", JStr "Сыктывкар")] "Сыктывкар" [])
    as (v & Hv & Hp & Hc & _ & He & Hs & Hu);
    [reflexivity | reflexivity | reflexivity | left; reflexivity
    | exists NOT_SPECIFIED; reflexivity |].
  exists v. repeat split; trivial.
  - apply He. reflexivity.
  - apply Hs. left. reflexivity.
  - apply Hu. reflexivity.
Defined.

(** ** The page fetcher *)

Section Fetcher.
Context {B : Builtins}.
Variable E : env.

Lemma attempt_body_429 (p attempt : Z) (w : world) header body secs :
  http E (tick w) p = Response 429 header body ->
  read_retry_after header = Ok secs ->
  0 <= secs <= sleep_max ->
  attempt_body E p attempt w = (Ok Continue, emit (ESleep secs) (after_get p w)).
Proof.
  intros Hhttp Hread Hsecs.
  unfold attempt_body, except_request, try_body, bind, get_page.
  rewrite Hhttp. cbn [Z.eqb Pos.eqb]. unfold lift. rewrite Hread.
  now rewrite (sleep_accepts secs _ Hsecs).
Qed.

Lemma attempt_body_unparseable (p attempt : Z) (w : world) s body :
  http E (tick w) p = Response 429 (Some s) body ->
  int_of_str s = None ->
  attempt_body E p attempt w = (Raise ValueError, after_get p w).
Proof.
  intros Hhttp Hint.
  unfold attempt_body, except_request, try_body, bind, get_page.
  rewrite Hhttp. cbn [Z.eqb Pos.eqb]. unfold lift, read_retry_after.
  now rewrite Hint.
Qed.

Lemma try_body_fails (p : Z) (w : world) :
  request_fails (http E (tick w) p) = true ->
  try_body E p w = (Raise RequestException, after_get p w).
Proof.
  intros Hfail. unfold try_body, bind, get_page.
  destruct (http E (tick w) p) as [| status header body]; [reflexivity |].
  cbn [request_fails] in Hfail.
  destruct (status =? 429); [discriminate |].
  destruct ((400 <=? status) && (status <? 600)); [reflexivity |].
  destruct body; [discriminate |].
  cbn in Hfail. unfold raise.
  destruct json_decode_error; try discriminate. reflexivity.
Qed.

Lemma attempt_body_fails (p attempt : Z) (w : world) :
  request_fails (http E (tick w) p) = true ->
  0 <= attempt ->
  attempt_body E p attempt w
  = (Ok Continue,
     if attempt <? MAX_RETRIES then emit (ESleep (REQUEST_DELAY * attempt)) (after_get p w)
     else after_get p w).
Proof.
  intros Hfail Hpos. unfold attempt_body, except_request.
  rewrite (try_body_fails _ _ Hfail). unfold bind.
  destruct (attempt <? MAX_RETRIES) eqn:Hlast; [| reflexivity].
  apply Z.ltb_lt in Hlast. unfold MAX_RETRIES in Hlast.
  rewrite sleep_short by (unfold REQUEST_DELAY; lia). reflexivity.
Qed.

Lemma attempt_body_data (p attempt : Z) (w : world) (data : json) :
  reply_data (http E (tick w) p) = Some data ->
  attempt_body E p attempt w = (Ok (Break data), after_get p w).
Proof.
  intros Hdata. unfold attempt_body, except_request, try_body, bind, get_page.
  destruct (http E (tick w) p) as [| status header body]; [discriminate |].
  cbn [reply_data] in Hdata.
  destruct (status =? 429); [discriminate |].
  destruct ((400 <=? status) && (status <? 600)); [discriminate |].
  cbn [orb] in Hdata. now rewrite Hdata.
Qed.

(** Data that an attempt breaks with is the data of a reply for the page. *)
Lemma attempt_body_break (p attempt : Z) (w w' : world) (data : json) :
  attempt_body E p attempt w = (Ok (Break data), w') ->
  reply_data (http E (tick w) p) = Some data.
Proof.
  assert (Hhandler : forall w1,
             ((if attempt <? MAX_RETRIES then sleep (REQUEST_DELAY * attempt) else ret tt) ;;;
              ret Continue)%world w1 <> (Ok (Break data), w')).
  { intros w1. unfold bind. destruct (attempt <? MAX_RETRIES).
    - destruct (sleep_cases (REQUEST_DELAY * attempt) w1) as [Hs | [Hs | Hs]];
        rewrite Hs; discriminate.
    - discriminate. }
  unfold attempt_body, except_request, try_body, bind, get_page.
  destruct (http E (tick w) p) as [| status header body]; cbn [reply_data].
  - unfold raise. intros H. now apply Hhandler in H.
  - destruct (status =? 429).
    + unfold lift. destruct (read_retry_after header) as [secs | e].
      * destruct (sleep_cases secs (next (emit (EGet p) w))) as [Hs | [Hs | Hs]];
          rewrite Hs; discriminate.
      * destruct e; try discriminate. intros H. now apply Hhandler in H.
    + destruct ((400 <=? status) && (status <? 600)); cbn [orb].
      * unfold raise. intros H. now apply Hhandler in H.
      * destruct body as [d |]; unfold raise, ret.
        -- intros H. now inversion H.
        -- destruct json_decode_error; try discriminate.
           intros H. now apply Hhandler in H.
Qed.

Lemma for_attempts_some (p : Z) (attempts : list Z) :
  forall w w' data,
    for_attempts E p attempts w = (Ok (Some data), w') ->
    exists n, reply_data (http E n p) = Some data.
Proof.
  induction attempts as [| a rest IH]; intros w w' data H; simpl in H.
  - discriminate.
  - unfold bind in H.
    destruct (attempt_body E p a w) as [[[d |] | e] w1] eqn:Hatt; try discriminate.
    + unfold ret in H. inversion H; subst.
      exists (tick w). eapply attempt_body_break; eauto.
    + eapply IH; eauto.
Qed.

End Fetcher.

Section FetcherClaims.
Context {B : Builtins}.
Variable E : env.

(** C1, as the code has it: on a 429 reply the fetcher sleeps the number of
    seconds of the Retry-After header, or REQUEST_DELAY when the header is
    absent, and goes on with the next attempt: the reply has used up one of
    the attempts of the page.  The number of seconds is one that
    [time.sleep] accepts: not negative and not above its limit. *)
Theorem rate_limit_consumes_attempt
  (p attempt : Z) (rest : list Z) (w : world) header body secs :
  http E (tick w) p = Response 429 header body ->
  read_retry_after header = Ok secs ->
  0 <= secs <= sleep_max ->
  for_attempts E p (attempt :: rest) w
  = for_attempts E p rest (emit (ESleep secs) (after_get p w))
  /\ (header = None -> secs = REQUEST_DELAY)
  /\ (forall s, header = Some s -> int_of_str s = Some secs).
Proof.
  intros Hhttp Hread Hsecs. repeat split.
  - cbn [for_attempts]. unfold bind at 1.
    now rewrite (attempt_body_429 E p attempt w header body secs Hhttp Hread Hsecs).
  - intros ->. cbn in Hread. congruence.
  - intros s ->. cbn in Hread. destruct (int_of_str s); congruence.
Qed.

(** C5, what the code does: on a 429 reply whose Retry-After header is not
    an integer literal, [int] raises ValueError; the handler of the attempt
    catches RequestException only, so the error leaves the attempt, the page
    fetch and the pagination loop, and the run ends on it with the records
    collected so far lost. *)
Theorem unparseable_retry_after_escapes
  (st : loop_state) (w : world) (s : string) body (fuel : nat) :
  py_lt (page st) (total_pages st) = Ok true ->
  http E (tick w) (page st) = Response 429 (Some s) body ->
  int_of_str s = None ->
  fetch_page E (page st) w = (Raise ValueError, after_get (page st) w)
  /\ loop_body E st w = (Raise ValueError, after_get (page st) w)
  /\ fetch_loop E (S fuel) st w = Some (Raise ValueError, after_get (page st) w).
Proof.
  intros Hlt Hhttp Hint.
  assert (Hfetch : fetch_page E (page st) w = (Raise ValueError, after_get (page st) w)).
  { unfold fetch_page.
    change (range 1 (MAX_RETRIES + 1)) with [1; 2; 3].
    cbn [for_attempts]. unfold bind at 1.
    now rewrite (attempt_body_unparseable E (page st) 1 w s body Hhttp Hint). }
  assert (Hbody : loop_body E st w = (Raise ValueError, after_get (page st) w)).
  { unfold loop_body, bind. now rewrite Hfetch. }
  repeat split; trivial.
  cbn [fetch_loop]. now rewrite Hlt, Hbody.
Qed.

End FetcherClaims.

(** C1 as stated fails: after two 429 replies the third attempt is the last
    one, and a third 429 reply ends the page fetch although the server would
    answer the next request. *)
Lemma rate_limit_uses_last_attempt :
  fetch_page (B := model_builtins) env_429_thrice 0 world0
  = (Ok None,
     {| tick := 3;
        trace := [EGet 0; ESleep 2; EGet 0; ESleep 2; EGet 0; ESleep 2];
        dirs := []; files := [] |})
  /\ ~ rate_limit_keeps_attempt (B := model_builtins) env_429_thrice.
Proof.
  split; [reflexivity |].
  intros H.
  specialize (H 0 3 [] {| tick := 2; trace := []; dirs := []; files := [] |}
                None None 2 eq_refl eq_refl ltac:(cbn [sleep_max model_builtins]; lia)).
  vm_compute in H. discriminate.
Qed.

Lemma rate_limit_consumes_attempt_witness :
  for_attempts (B := model_builtins) env_429_thrice 0 [3]
    {| tick := 2; trace := []; dirs := []; files := [] |}
  = (Ok None, {| tick := 3; trace := [EGet 0; ESleep 2]; dirs := []; files := [] |}).
Proof.
  rewrite (proj1 (rate_limit_consumes_attempt (B := model_builtins) env_429_thrice
                    0 3 [] {| tick := 2; trace := []; dirs := []; files := [] |}
                    None None 2 eq_refl eq_refl ltac:(cbn [sleep_max model_builtins]; lia))).
  reflexivity.
Defined.

Lemma unparseable_retry_after_escapes_witness :
  fetch_loop (B := model_builtins) env_retry_date 1 init_state world0
  = Some (Raise ValueError, {| tick := 1; trace := [EGet 0]; dirs := []; files := [] |}).
Proof.
  exact (proj2 (proj2 (unparseable_retry_after_escapes (B := model_builtins)
                         env_retry_date init_state world0
                         "Wed, 21 Oct 2015 07:28:00 GMT" None 0
                         eq_refl eq_refl eq_refl))).
Defined.

(** C5 at a concrete input: the run ends on the error, and [main] logs it
    as critical without having saved anything. *)
Lemma retry_after_date_aborts_run :
  fetch_vacancies (B := model_builtins) env_retry_date 5 world0
  = Some (Raise ValueError, {| tick := 1; trace := [EGet 0]; dirs := []; files := [] |})
  /\ main (B := model_builtins) env_retry_date 5 world0
     = Some (CriticalError ValueError,
             {| tick := 1; trace := [EGet 0]; dirs := []; files := [] |}).
Proof. split; reflexivity. Qed.

(** ** The pagination loop *)

Section Loop.
Context {B : Builtins}.
Variable E : env.

(** The two ways an iteration returns. *)
Lemma loop_body_inv (st st' : loop_state) (w w' : world) :
  loop_body E st w = (Ok st', w') ->
  (fetch_page E (page st) w = (Ok None, w') /\ st' = skip_page st)
  \/ (exists data w1 pages items item_list,
        fetch_page E (page st) w = (Ok (Some data), w1)
        /\ py_get data "pages" (JNum 0) = Ok pages
        /\ py_get data "items" (JArr []) = Ok items
        /\ py_iter items = Ok item_list
        /\ w' = emit (ESleep REQUEST_DELAY) w1
        /\ st' = {| page := page st + 1; total_pages := pages;
                    vacancies := fold_left process_item item_list (vacancies st) |}).
Proof.
  unfold loop_body, bind. intros H.
  destruct (fetch_page E (page st) w) as [[[data |] | e] w1] eqn:Hfetch;
    try discriminate.
  - right. unfold lift in H.
    destruct (py_get data "pages" (JNum 0)) as [pages | e] eqn:Hp; try discriminate.
    destruct (py_get data "items" (JArr [])) as [items | e] eqn:Hi; try discriminate.
    destruct (py_iter items) as [item_list | e] eqn:Hl; try discriminate.
    rewrite sleep_short in H by (unfold REQUEST_DELAY; lia).
    unfold ret in H. inversion H; subst.
    exists data, w1, pages, items, item_list. repeat split; trivial.
  - left. unfold ret in H. inversion H; subst. split; reflexivity.
Qed.

Lemma loop_body_city_ok (st st' : loop_state) (w w' : world) :
  loop_body E st w = (Ok st', w') ->
  Forall city_ok (vacancies st) -> Forall city_ok (vacancies st').
Proof.
  intros H Hvs.
  destruct (loop_body_inv _ _ _ _ H)
    as [[_ ->] | (data & w1 & pages & items & item_list & _ & _ & _ & _ & _ & ->)];
    cbn [vacancies skip_page]; trivial.
  now apply fold_process_city_ok.
Qed.

Lemma fetch_loop_city_ok (fuel : nat) :
  forall st w st' w',
    fetch_loop E fuel st w = Some (Ok st', w') ->
    Forall city_ok (vacancies st) -> Forall city_ok (vacancies st').
Proof.
  induction fuel as [| fuel IH]; intros st w st' w' H Hvs; simpl in H.
  - destruct (py_lt (page st) (total_pages st)) as [[|] | e]; inversion H; now subst.
  - destruct (py_lt (page st) (total_pages st)) as [[|] | e];
      try (inversion H; now subst).
    destruct (loop_body E st w) as [[st1 | e] w1] eqn:Hbody; [| discriminate].
    eapply IH; eauto. eapply loop_body_city_ok; eauto.
Qed.

(** C7: an item whose lowercased city (the empty string when [area] or its
    [name] is absent) does not hold the keyword is left out; every record
    that an iteration adds, and so every record of the result, has a
    lowercased city that holds the keyword. *)
Theorem city_filter_invariant :
  (forall item vs,
      (forall s, area_name item = Some s -> contains CITY_KEYWORD (str_lower s) = false) ->
      process_item vs item = vs)
  /\ (forall item vs,
        area_name item = Some "" -> str_lower "" = "" -> process_item vs item = vs)
  /\ (forall item vs v,
        process_item vs item = (vs ++ [v])%list ->
        exists s, area_name item = Some s /\ city v = str_lower s /\ city_ok v)
  /\ (forall st w st' w',
        loop_body E st w = (Ok st', w') ->
        Forall city_ok (vacancies st) -> Forall city_ok (vacancies st'))
  /\ (forall fuel w vs w',
        fetch_vacancies E fuel w = Some (Ok vs, w') -> Forall city_ok vs).
Proof.
  repeat split.
  - intros item vs. apply process_item_excluded.
  - intros item vs Hname Hlower. apply process_item_excluded.
    intros s Hs. rewrite Hname in Hs. inversion Hs; subst.
    rewrite Hlower. reflexivity.
  - intros item vs v. unfold process_item.
    destruct (extract_item item) as [[v' |] | e] eqn:Hex; intros H.
    + apply app_inv_head in H. inversion H; subst.
      now apply extract_item_some.
    + rewrite <- (app_nil_r vs) in H at 1. apply app_inv_head in H. discriminate.
    + rewrite <- (app_nil_r vs) in H at 1. apply app_inv_head in H. discriminate.
  - intros st w st' w'. apply loop_body_city_ok.
  - intros fuel w vs w' H. unfold fetch_vacancies in H.
    destruct (fetch_loop E fuel init_state w) as [[[st | e] w1] |] eqn:Hloop;
      try discriminate.
    inversion H; subst.
    eapply fetch_loop_city_ok; [eassumption | constructor].
Qed.

(** C4, as the code has it: an iteration whose page fetch brought data ends
    with the inter-page sleep, after the page index moved on; an iteration
    whose page was skipped moves the page index on and ends where the page
    fetch ended, without that sleep. *)
Theorem politeness_sleep_on_success (st st' : loop_state) (w w' : world) :
  loop_body E st w = (Ok st', w') ->
  page st' = page st + 1
  /\ ((exists data w1,
         fetch_page E (page st) w = (Ok (Some data), w1)
         /\ w' = emit (ESleep REQUEST_DELAY) w1
         /\ trace w' = (trace w1 ++ [ESleep REQUEST_DELAY])%list)
      \/ (fetch_page E (page st) w = (Ok None, w') /\ st' = skip_page st)).
Proof.
  intros H. split; [eapply loop_body_page; eauto |].
  destruct (loop_body_inv _ _ _ _ H)
    as [[Hf ->] | (data & w1 & pages & items & item_list & Hf & _ & _ & _ & -> & ->)].
  - right. split; trivial.
  - left. exists data, w1. repeat split; trivial.
Qed.

(** C10: when the collection returns no record, [main] ends without calling
    [save_to_excel]: the directories and the files are the ones from before
    the run, and the run consists of requests and sleeps only, with no
    directory made, no file opened and no file written. *)
Theorem main_skips_sink_when_empty (fuel : nat) (w w' : world) :
  fetch_vacancies E fuel w = Some (Ok [], w') ->
  main E fuel w = Some (Finished, w')
  /\ dirs w' = dirs w
  /\ files w' = files w
  /\ exists evs, trace w' = (trace w ++ evs)%list /\ Forall is_net_event evs.
Proof.
  intros H. split.
  - unfold main. now rewrite H.
  - unfold fetch_vacancies in H.
    destruct (fetch_loop E fuel init_state w) as [[[st | e] w1] |] eqn:Hloop;
      try discriminate.
    inversion H; subst.
    destruct (fetch_loop_reaches E fuel _ _ _ _ Hloop) as (Hd & Hf & _ & evs & He & Hall).
    repeat split; trivial.
    exists evs. split; trivial.
    eapply Forall_impl; [| exact Hall].
    intros [q | secs | folder | fp | fp rows]; cbn; trivial.
Qed.

End Loop.

(** C4 as stated fails: after a page that is skipped there is no inter-page
    sleep; the last request of page 1 is followed by the request of page 2. *)
Lemma no_politeness_sleep_after_skip :
  fetch_vacancies (B := model_builtins) env_page1_down 5 world0
  = Some (Ok [],
          {| tick := 5;
             trace := [EGet 0; ESleep 2; EGet 1; ESleep 2; EGet 1; ESleep 4;
                       EGet 1; EGet 2; ESleep 2];
             dirs := []; files := [] |})
  /\ ~ politeness_sleep_after (B := model_builtins) env_down init_state world0.
Proof.
  split; [reflexivity |].
  intros H. destruct (H _ _ eq_refl) as [evs Hevs].
  cbn in Hevs.
  apply (f_equal (@rev event)) in Hevs.
  rewrite rev_app_distr in Hevs. discriminate.
Qed.

Lemma politeness_sleep_on_success_witness :
  page {| page := 1; total_pages := JNum 3; vacancies := [] |} = 0 + 1
  /\ ((exists data w1,
         fetch_page (B := model_builtins) env_page1_down 0 world0 = (Ok (Some data), w1)
         /\ {| tick := 1; trace := [EGet 0; ESleep 2]; dirs := []; files := [] |}
            = emit (ESleep REQUEST_DELAY) w1
         /\ [EGet 0; ESleep 2] = (trace w1 ++ [ESleep REQUEST_DELAY])%list)
      \/ (fetch_page (B := model_builtins) env_page1_down 0 world0
          = (Ok None, {| tick := 1; trace := [EGet 0; ESleep 2]; dirs := []; files := [] |})
          /\ {| page := 1; total_pages := JNum 3; vacancies := [] |}
             = skip_page init_state)).
Proof.
  exact (politeness_sleep_on_success (B := model_builtins) env_page1_down
           init_state {| page := 1; total_pages := JNum 3; vacancies := [] |}
           world0 {| tick := 1; trace := [EGet 0; ESleep 2]; dirs := []; files := [] |}
           eq_refl).
Defined.

Lemma main_skips_sink_when_empty_witness :
  main (B := model_builtins) env_down 5 world0
  = Some (Finished,
          {| tick := 3; trace := [EGet 0; ESleep 2; EGet 0; ESleep 4; EGet 0];
             dirs := []; files := [] |}).
Proof.
  exact (proj1 (main_skips_sink_when_empty (B := model_builtins) env_down 5 world0
                  {| tick := 3; trace := [EGet 0; ESleep 2; EGet 0; ESleep 4; EGet 0];
                     dirs := []; files := [] |} eq_refl)).
Defined.

Lemma city_filter_invariant_witness :
  process_item (B := model_builtins) [] item_moscow = []
  /\ Forall city_ok
       [{| title := JStr "Программист"; employer := JStr "ООО Ромашка";
           salary := "от 50000 RUR"; city := "сыктывкар";
           url := JStr "https://hh.ru/vacancy/1" |}].
Proof.
  split.
  - apply (proj1 (city_filter_invariant (B := model_builtins) env_down)).
    intros s Hs. inversion Hs; subst. reflexivity.
  - exact (proj2 (proj2 (proj2 (proj2
             (city_filter_invariant (B := model_builtins)
                (env_two_pages [item_moscow; item_syktyvkar])))))
             5%nat world0 _
             {| tick := 4;
                trace := [EGet 0; ESleep 2; EGet 1; ESleep 2; EGet 1; ESleep 4; EGet 1];
                dirs := []; files := [] |}
             eq_refl).
Defined.

(** ** Termination and the end-to-end run *)

Section Runs.
Context {B : Builtins}.
Variable E : env.

Lemma attempt_body_continues (p attempt : Z) (w : world) :
  attempt_fails (http E (tick w) p) = true ->
  0 <= attempt ->
  exists w', attempt_body E p attempt w = (Ok Continue, w').
Proof.
  intros Hfail Hpos. unfold attempt_fails in Hfail.
  destruct (request_fails (http E (tick w) p)) eqn:Hreq.
  - eexists. now apply attempt_body_fails.
  - cbn [orb] in Hfail.
    destruct (http E (tick w) p) as [| status header body] eqn:Hhttp; [discriminate |].
    apply andb_prop in Hfail. destruct Hfail as [Hstatus Hread].
    apply Z.eqb_eq in Hstatus. subst status.
    destruct (read_retry_after header) as [secs | e] eqn:Hsecs; [| discriminate].
    apply andb_prop in Hread. destruct Hread as [Hlo Hhi].
    apply Z.leb_le in Hlo. apply Z.leb_le in Hhi.
    eexists. eapply attempt_body_429; eauto.
Qed.

Lemma for_attempts_all_fail (p : Z) (attempts : list Z) :
  (forall n, attempt_fails (http E n p) = true) ->
  Forall (fun a => 0 <= a) attempts ->
  forall w, exists w', for_attempts E p attempts w = (Ok None, w').
Proof.
  intros Hfail. induction attempts as [| a rest IH]; intros Hpos w.
  - eexists. reflexivity.
  - inversion Hpos as [| ? ? Ha Hrest]; subst.
    destruct (attempt_body_continues p a w (Hfail _) Ha) as [w1 H1].
    destruct (IH Hrest w1) as [w2 H2].
    exists w2. cbn [for_attempts]. unfold bind. now rewrite H1.
Qed.

Lemma loop_body_all_fail (st : loop_state) (w : world) :
  (forall n, attempt_fails (http E n (page st)) = true) ->
  exists w', loop_body E st w = (Ok (skip_page st), w').
Proof.
  intros Hfail.
  destruct (for_attempts_all_fail (page st) [1; 2; 3] Hfail) with (w := w) as [w' Hw'].
  { repeat constructor; lia. }
  exists w'. unfold loop_body, bind, fetch_page.
  change (range 1 (MAX_RETRIES + 1)) with [1; 2; 3].
  now rewrite Hw'.
Qed.

Lemma py_lt_true_bound (m : Z) (st : loop_state) :
  1 <= m -> total_at_most m st ->
  py_lt (page st) (total_pages st) = Ok true -> page st < m.
Proof.
  intros Hm Hst Hlt. unfold py_lt in Hlt.
  destruct (total_pages st) as [| b | n | s | l | kvs] eqn:Htp; try discriminate.
  - inversion Hlt as [H]. apply Z.ltb_lt in H. destruct b; lia.
  - inversion Hlt as [H]. apply Z.ltb_lt in H. specialize (Hst n Htp). lia.
Qed.

Lemma loop_body_total_at_most (bound : Z) (st st' : loop_state) (w w' : world) :
  (forall n p, pages_at_most bound (http E n p)) ->
  loop_body E st w = (Ok st', w') ->
  total_at_most (Z.max 1 bound) st -> total_at_most (Z.max 1 bound) st'.
Proof.
  intros Hpages Hbody Hst.
  destruct (loop_body_inv _ _ _ _ _ Hbody)
    as [[_ ->] | (data & w1 & pages & items & item_list & Hf & Hp & _ & _ & _ & ->)];
    [exact Hst |].
  intros n Hn. cbn [total_pages] in Hn. subst pages.
  destruct (for_attempts_some _ _ _ _ _ _ Hf) as [k Hk].
  destruct data as [| b | m | s | l | kvs]; try discriminate.
  rewrite py_get_obj in Hp.
  destruct (assoc "pages" kvs) as [v |] eqn:Hv; inversion Hp; subst.
  - specialize (Hpages k (page st) kvs n Hk Hv). lia.
  - lia.
Qed.

(** With bounded [pages] values the loop returns or raises within the
    fuel that the bound gives, and it leaves the page index within the bound. *)
Lemma fetch_loop_total (bound : Z) :
  (forall n p, pages_at_most bound (http E n p)) ->
  forall fuel st w,
    total_at_most (Z.max 1 bound) st ->
    (Z.to_nat (Z.max 1 bound - page st) <= fuel)%nat ->
    exists o w',
      fetch_loop E fuel st w = Some (o, w')
      /\ (page st <= Z.max 1 bound ->
          forall st', o = Ok st' -> page st' <= Z.max 1 bound).
Proof.
  intros Hpages.
  induction fuel as [| fuel IH]; intros st w Hst Hfuel; cbn [fetch_loop];
    destruct (py_lt (page st) (total_pages st)) as [[|] | e] eqn:Hlt;
    try (eexists; eexists; split; [reflexivity |];
         intros Hle st' Heq; inversion Heq; subst; exact Hle).
  - apply py_lt_true_bound with (m := Z.max 1 bound) in Hlt; trivial; lia.
  - apply py_lt_true_bound with (m := Z.max 1 bound) in Hlt; trivial; try lia.
    destruct (loop_body E st w) as [[st1 | e] w1] eqn:Hbody.
    + pose proof (loop_body_page _ _ _ _ _ Hbody) as Hpage.
      destruct (IH st1 w1) as (o & w' & Hrun & Hbound).
      * eapply loop_body_total_at_most; eauto.
      * lia.
      * exists o, w'. split; trivial.
        intros _. apply Hbound. lia.
    + eexists; eexists; split; [reflexivity |]. intros _ st' Heq. discriminate.
Qed.

(** C6, as the code has it: when the [pages] values that the replies report
    are at most [bound], the run returns or raises after at most
    max(1, bound) iterations (the page index counts them), whatever fails;
    when every attempt of every page fails, one iteration runs, the bound
    stays 1 and the result is empty. *)
Theorem bounded_pages_terminate (bound : Z) (w : world) :
  (forall n p, pages_at_most bound (http E n p)) ->
  (forall fuel,
      (Z.to_nat (Z.max 1 bound) <= fuel)%nat ->
      (exists r, fetch_vacancies E fuel w = Some r)
      /\ (forall st' w',
             fetch_loop E fuel init_state w = Some (Ok st', w') ->
             page st' <= Z.max 1 bound))
  /\ ((forall n p, attempt_fails (http E n p) = true) ->
      forall fuel,
        (1 <= fuel)%nat ->
        exists w',
          fetch_loop E fuel init_state w
          = Some (Ok {| page := 1; total_pages := JNum 1; vacancies := [] |}, w')
          /\ fetch_vacancies E fuel w = Some (Ok [], w')).
Proof.
  intros Hpages. split.
  - intros fuel Hfuel.
    destruct (fetch_loop_total bound Hpages fuel init_state w)
      as (o & w' & Hrun & Hbound).
    + intros n Hn. inversion Hn; subst. lia.
    + cbn [page init_state]. now rewrite Z.sub_0_r.
    + split.
      * unfold fetch_vacancies. rewrite Hrun. destruct o; eauto.
      * intros st' w'' Hrun'. rewrite Hrun in Hrun'. inversion Hrun'; subst.
        apply Hbound; trivial. cbn. lia.
  - intros Hfail fuel Hfuel.
    destruct fuel as [| fuel]; [lia |].
    destruct (loop_body_all_fail init_state w (fun n => Hfail n _)) as [w' Hbody].
    exists w'.
    assert (Hrun : fetch_loop E (S fuel) init_state w
                   = Some (Ok {| page := 1; total_pages := JNum 1; vacancies := [] |}, w')).
    { cbn [fetch_loop init_state page total_pages py_lt].
      change (0 <? 1) with true. cbv iota.
      change {| page := 0; total_pages := JNum 1; vacancies := [] |} with init_state.
      rewrite Hbody. destruct fuel; reflexivity. }
    split; trivial.
    unfold fetch_vacancies. now rewrite Hrun.
Qed.

Lemma fold_process_excluded (items : list json) (vs : list vacancy) :
  (forall x, In x items ->
             forall s, area_name x = Some s -> contains CITY_KEYWORD (str_lower s) = false) ->
  fold_left process_item items vs = vs.
Proof.
  induction items as [| x rest IH]; intros Hex; cbn [fold_left]; trivial.
  rewrite process_item_excluded by (apply Hex; now left).
  apply IH. intros y Hy. apply Hex. now right.
Qed.

(** C9, as the code has it: the fetch of page 0 brings data that report two
    pages and carry one item that the extractor turns into a record (it
    passes the city filter and its fields can be read) among items that do
    not pass the city filter, and every attempt for page 1 fails; then the
    run returns, and its result is that one record. *)
Theorem two_pages_one_match
  (w w0 : world) (kvs : list (string * json)) (before after : list json)
  (item : json) (v : vacancy) (fuel : nat) :
  fetch_page E 0 w = (Ok (Some (JObj kvs)), w0) ->
  assoc "pages" kvs = Some (JNum 2) ->
  assoc "items" kvs = Some (JArr (before ++ item :: after)) ->
  (forall x, In x (before ++ after) ->
             forall s, area_name x = Some s -> contains CITY_KEYWORD (str_lower s) = false) ->
  extract_item item = Ok (Some v) ->
  (forall n, attempt_fails (http E n 1) = true) ->
  (2 <= fuel)%nat ->
  exists w', fetch_vacancies E fuel w = Some (Ok [v], w').
Proof.
  intros Hreply Hpages Hitems Hothers Hitem Hfail Hfuel.
  destruct fuel as [| [| fuel]]; try lia.
  set (st1 := {| page := 1; total_pages := JNum 2; vacancies := [v] |}).
  set (w1 := emit (ESleep REQUEST_DELAY) w0).
  assert (Hbody0 : loop_body E init_state w = (Ok st1, w1)).
  { unfold loop_body, bind. cbn [page init_state]. rewrite Hreply.
    unfold ret, lift. rewrite !py_get_obj, Hpages, Hitems. cbn [py_iter].
    rewrite fold_left_app. cbn [fold_left vacancies].
    rewrite (fold_process_excluded before)
      by (intros x Hx; apply Hothers; apply in_or_app; now left).
    unfold process_item at 2. rewrite Hitem.
    rewrite (fold_process_excluded after)
      by (intros x Hx; apply Hothers; apply in_or_app; now right).
    rewrite sleep_short by (unfold REQUEST_DELAY; lia).
    reflexivity. }
  destruct (loop_body_all_fail st1 w1 Hfail) as [w2 Hbody1].
  exists w2. unfold fetch_vacancies.
  cbn [fetch_loop init_state page total_pages py_lt].
  change (0 <? 1) with true. cbv iota.
  change {| page := 0; total_pages := JNum 1; vacancies := [] |} with init_state.
  rewrite Hbody0. cbn [st1 page total_pages py_lt].
  change (1 <? 2) with true. cbv iota. fold st1.
  rewrite Hbody1.
  destruct fuel; reflexivity.
Qed.

End Runs.

(** On the server that reports one page more with every reply, an iteration
    leaves the loop test true. *)
Lemma env_growing_diverges (fuel : nat) :
  forall st w,
    total_pages st = JNum (page st + 1) ->
    fetch_loop (B := model_builtins) env_growing fuel st w = None.
Proof.
  induction fuel as [| fuel IH]; intros st w Htp; cbn [fetch_loop];
    rewrite Htp; cbn [py_lt];
    replace (page st <? page st + 1) with true by (symmetry; apply Z.ltb_lt; lia);
    trivial.
  assert (Hbody : loop_body (B := model_builtins) env_growing st w
                  = (Ok {| page := page st + 1; total_pages := JNum (page st + 2);
                           vacancies := vacancies st |},
                     emit (ESleep REQUEST_DELAY) (after_get (page st) w))).
  { unfold loop_body, bind, fetch_page.
    change (range 1 (MAX_RETRIES + 1)) with [1; 2; 3].
    cbn [for_attempts]. unfold bind.
    rewrite (attempt_body_data env_growing (page st) 1 w
               (JObj [("items", JArr []); ("pages", JNum (page st + 2))]) eq_refl).
    reflexivity. }
  rewrite Hbody. apply IH. cbn [page total_pages]. f_equal. lia.
Qed.

(** C6 as stated fails: every reply of this server reports a finite number
    of pages, two more than the index of the page asked for, and the run
    never ends. *)
Lemma growing_pages_never_end :
  reply_data (http env_growing 0 0) = Some (JObj [("items", JArr []); ("pages", JNum 2)])
  /\ ~ terminates (B := model_builtins) env_growing world0.
Proof.
  split; [reflexivity |].
  intros (fuel & r & H). unfold fetch_vacancies in H.
  rewrite env_growing_diverges in H by reflexivity. discriminate.
Qed.

Lemma bounded_pages_terminate_witness :
  (exists r, fetch_vacancies (B := model_builtins) env_page1_down 3 world0 = Some r)
  /\ exists w',
       fetch_loop (B := model_builtins) env_down 1 init_state world0
       = Some (Ok {| page := 1; total_pages := JNum 1; vacancies := [] |}, w')
       /\ fetch_vacancies (B := model_builtins) env_down 1 world0 = Some (Ok [], w').
Proof.
  split.
  - refine (proj1 (proj1 (bounded_pages_terminate (B := model_builtins) env_page1_down
                            3 world0 _) 3%nat _)).
    + intros n p kvs m Hdata Hpages. cbn in Hdata.
      destruct (p =? 1); [discriminate |].
      inversion Hdata; subst. cbn in Hpages. inversion Hpages. lia.
    + cbn. lia.
  - refine (proj2 (bounded_pages_terminate (B := model_builtins) env_down 1 world0 _)
              (fun n p => eq_refl) 1%nat _).
    + intros n p kvs m Hdata. discriminate.
    + lia.
Defined.

(** C9 as stated fails on an item that passes the city filter and whose
    employer is null: it is skipped, and the run returns no record. *)
Lemma two_pages_null_employer :
  area_name item_null_employer = Some "Сыктывкар"
  /\ contains CITY_KEYWORD (model_lower "Сыктывкар") = true
  /\ fetch_vacancies (B := model_builtins) (env_two_pages [item_null_employer]) 5 world0
     = Some (Ok [],
             {| tick := 4;
                trace := [EGet 0; ESleep 2; EGet 1; ESleep 2; EGet 1; ESleep 4; EGet 1];
                dirs := []; files := [] |}).
Proof. repeat split; reflexivity. Qed.

Lemma two_pages_one_match_witness :
  exists w',
    fetch_vacancies (B := model_builtins)
      (env_two_pages [item_moscow; item_syktyvkar]) 5 world0
    = Some (Ok [{| title := JStr "Программист"; employer := JStr "ООО Ромашка";
                   salary := "от 50000 RUR"; city := "сыктывкар";
                   url := JStr "https://hh.ru/vacancy/1" |}], w').
Proof.
  refine (two_pages_one_match (B := model_builtins)
            (env_two_pages [item_moscow; item_syktyvkar]) world0
            {| tick := 1; trace := [EGet 0]; dirs := []; files := [] |}
            [("items", JArr [item_moscow; item_syktyvkar]); ("pages", JNum 2)]
            [item_moscow] [] item_syktyvkar _ 5
            eq_refl eq_refl eq_refl _ eq_refl (fun n => eq_refl) _).
  - intros x [<- | []] s Hs. inversion Hs; subst. reflexivity.
  - lia.
Defined.

(** * Properties of the remaining code *)

(** ** The formatter and the extractor on arbitrary values *)

Section Values.
Context {B : Builtins}.

(** X1: [format_salary] raises exactly on a value that is true and is not a
    dict (a non-empty string or list, a non-zero number, [True]), and what
    it raises is AttributeError; on a dict and on a false value it returns a
    string. *)
Theorem format_salary_raises_iff (salary : json) :
  (format_salary salary = Raise AttributeError
   <-> truthy salary && negb (is_dict salary) = true)
  /\ ((exists s, format_salary salary = Ok s)
      <-> truthy salary && negb (is_dict salary) = false).
Proof.
  assert (Hdict : forall kvs, exists s, format_salary (JObj kvs) = Ok s).
  { intros kvs. unfold format_salary. destruct (truthy (JObj kvs)); cbn [negb].
    - rewrite !py_get_obj. cbn [obind].
      destruct (truthy (get_or JNull (assoc "from" kvs))) eqn:Hf;
        destruct (truthy (get_or JNull (assoc "to" kvs))) eqn:Ht;
        unfold get_or in Hf, Ht; rewrite Hf; try rewrite Ht; cbn [andb];
        eexists; reflexivity.
    - eexists; reflexivity. }
  destruct salary as [| b | n | s | l | kvs].
  - cbn. split; split; try discriminate; eauto.
  - destruct b; cbn; split; split; trivial; try discriminate; eauto;
      intros [s Hs]; discriminate.
  - unfold format_salary. cbn [truthy is_dict negb andb].
    rewrite andb_true_r. destruct (n =? 0); cbn [negb py_get obind];
      split; split; trivial; try discriminate; eauto; intros [s Hs]; discriminate.
  - unfold format_salary. cbn [truthy is_dict negb andb].
    rewrite andb_true_r. destruct (String.eqb s ""); cbn [negb py_get obind];
      split; split; trivial; try discriminate; eauto; intros [x Hx]; discriminate.
  - destruct l; cbn; split; split; trivial; try discriminate; eauto;
      intros [s Hs]; discriminate.
  - cbn [is_dict negb]. rewrite andb_false_r.
    destruct (Hdict kvs) as [s Hs]. rewrite Hs.
    split; split; trivial; try discriminate; eauto.
Qed.

(** X2: every field of a record that is produced is read off its item: the
    title and the link are the values under [name] and [alternate_url]
    whenever the key is there, whatever the value (null too), and the
    placeholders when it is not; the employer is the [name] of the
    [employer] dict, or the placeholder; the salary is the formatted
    [salary] value; the city is the lowercased [area.name]. *)
Theorem extract_item_fields (item : json) (v : vacancy) :
  extract_item item = Ok (Some v) ->
  exists kvs,
    item = JObj kvs
    /\ title v = get_or (JStr NO_TITLE) (assoc "name" kvs)
    /\ url v = get_or (JStr NO_LINK) (assoc "alternate_url" kvs)
    /\ format_salary (get_or JNull (assoc "salary" kvs)) = Ok (salary v)
    /\ (exists employer_info,
          get_or (JObj []) (assoc "employer" kvs) = JObj employer_info
          /\ employer v = get_or (JStr NO_EMPLOYER) (assoc "name" employer_info))
    /\ (exists s, area_name item = Some s /\ city v = str_lower s).
Proof.
  intros H.
  destruct (extract_item_some _ _ H) as (s & Harea & Hcity & Hok).
  destruct item as [| b | n | x | l | kvs]; try discriminate.
  exists kvs. split; trivial.
  rewrite extract_item_unfold in H.
  pose proof (extract_item_city (JObj kvs)) as Hc. rewrite Harea in Hc.
  rewrite Hc in H. unfold obind at 1 in H.
  unfold city_ok in Hok. rewrite Hcity in Hok. rewrite Hok in H. cbn [negb] in H.
  rewrite !py_get_obj in H. cbn [obind] in H.
  fold (get_or (JStr NO_TITLE) (assoc "name" kvs)) in H.
  fold (get_or (JObj []) (assoc "employer" kvs)) in H.
  fold (get_or JNull (assoc "salary" kvs)) in H.
  fold (get_or (JStr NO_LINK) (assoc "alternate_url" kvs)) in H.
  destruct (get_or (JObj []) (assoc "employer" kvs)) as [| b | n | x | l | ekvs];
    try discriminate.
  rewrite py_get_obj in H. cbn [obind] in H.
  destruct (format_salary (get_or JNull (assoc "salary" kvs))) as [sal | e];
    [| discriminate].
  cbn [obind] in H. inversion H; subst. cbn.
  repeat split; trivial.
  - exists ekvs. split; reflexivity.
  - exists s. split; trivial.
Qed.

Lemma fold_process_extracted (items : list json) :
  forall vs, fold_left process_item items vs = (vs ++ extracted items)%list.
Proof.
  induction items as [| item rest IH]; intros vs; cbn [fold_left].
  - cbn. now rewrite app_nil_r.
  - rewrite IH. unfold extracted. cbn [flat_map]. unfold process_item.
    destruct (extract_item item) as [[v |] | e];
      cbn [app]; now rewrite <- ?app_assoc.
Qed.

(** X3: the item loop appends, in the order of the items, the records of the
    items that are extracted, and leaves the records it started with in
    front of them; it adds at most one record per item. *)
Theorem item_loop_appends_in_order (items : list json) (vs : list vacancy) :
  fold_left process_item items vs = (vs ++ extracted items)%list
  /\ (length (extracted items) <= length items)%nat.
Proof.
  split; [apply fold_process_extracted |].
  unfold extracted.
  induction items as [| item rest IH]; cbn [flat_map length]; trivial.
  rewrite length_app.
  destruct (extract_item item) as [[v |] | e]; cbn [length]; lia.
Qed.

End Values.

Lemma extract_item_fields_witness :
  exists kvs,
    item_syktyvkar = JObj kvs
    /\ JStr "Программист" = get_or (JStr NO_TITLE) (assoc "name" kvs)
    /\ JStr "https://hh.ru/vacancy/1" = get_or (JStr NO_LINK) (assoc "alternate_url" kvs)
    /\ format_salary (B := model_builtins) (get_or JNull (assoc "salary" kvs))
       = Ok "от 50000 RUR"
    /\ (exists employer_info,
          get_or (JObj []) (assoc "employer" kvs) = JObj employer_info
          /\ JStr "ООО Ромашка" = get_or (JStr NO_EMPLOYER) (assoc "name" employer_info))
    /\ (exists s, area_name item_syktyvkar = Some s /\ "сыктывкар" = model_lower s).
Proof.
  exact (extract_item_fields (B := model_builtins) item_syktyvkar
           {| title := JStr "Программист"; employer := JStr "ООО Ромашка";
              salary := "от 50000 RUR"; city := "сыктывкар";
              url := JStr "https://hh.ru/vacancy/1" |} eq_refl).
Defined.

(** ** The requests of one page *)

Lemma gets_app (a b : list event) : gets (a ++ b) = (gets a ++ gets b)%list.
Proof.
  induction a as [| e a IH]; cbn [app gets]; trivial.
  destruct e; cbn [app]; now rewrite IH.
Qed.

Lemma gets_sleeps (secs : list Z) : gets (map ESleep secs) = [].
Proof. induction secs; cbn; trivial. Qed.

Section Requests.
Context {B : Builtins}.
Variable E : env.

Ltac one_get H :=
  inversion H; subst; cbn [after_get next emit tick trace];
  first [ exists []; split; reflexivity
        | eexists [_]; rewrite <- app_assoc; split; reflexivity ].

(** Whatever it receives, an attempt makes one request, of its page, and
    sleeps at most once after it. *)
Lemma attempt_body_one_get (p attempt : Z) (w w' : world) (o : outcome flow) :
  attempt_body E p attempt w = (o, w') ->
  exists secs,
    trace w' = (trace w ++ EGet p :: map ESleep secs)%list /\ tick w' = S (tick w).
Proof.
  assert (Hhandler : forall o1 w1,
             ((if attempt <? MAX_RETRIES then sleep (REQUEST_DELAY * attempt) else ret tt) ;;;
              ret Continue)%world (next (emit (EGet p) w)) = (o1, w1) ->
             exists secs,
               trace w1 = (trace w ++ EGet p :: map ESleep secs)%list
               /\ tick w1 = S (tick w)).
  { intros o1 w1. unfold bind. destruct (attempt <? MAX_RETRIES).
    - destruct (sleep_cases (REQUEST_DELAY * attempt) (next (emit (EGet p) w)))
        as [Hs | [Hs | Hs]]; rewrite Hs; unfold ret; intros H; one_get H.
    - unfold ret. intros H; one_get H. }
  unfold attempt_body, except_request, try_body, bind, get_page.
  destruct (http E (tick w) p) as [| status header body].
  - unfold raise. apply Hhandler.
  - destruct (status =? 429).
    + unfold lift, read_retry_after.
      destruct header as [s |]; [destruct (int_of_str s) as [n |] |].
      * destruct (sleep_cases n (next (emit (EGet p) w))) as [Hs | [Hs | Hs]];
          rewrite Hs; unfold ret; intros H; one_get H.
      * intros H; one_get H.
      * rewrite sleep_short by (unfold REQUEST_DELAY; lia).
        unfold ret. intros H; one_get H.
    + destruct ((400 <=? status) && (status <? 600)).
      * unfold raise. apply Hhandler.
      * destruct body as [d |]; unfold raise, ret.
        -- intros H; one_get H.
        -- destruct json_decode_error; try (intros H; one_get H).
           apply Hhandler.
Qed.

Lemma for_attempts_gets (p : Z) (attempts : list Z) :
  forall w o w',
    for_attempts E p attempts w = (o, w') ->
    exists evs k,
      trace w' = (trace w ++ evs)%list
      /\ gets evs = repeat p k
      /\ (k <= length attempts)%nat
      /\ (attempts <> [] -> (1 <= k)%nat)
      /\ tick w' = (tick w + k)%nat.
Proof.
  induction attempts as [| a rest IH]; intros w o w' H; cbn [for_attempts] in H.
  - inversion H; subst. exists [], 0%nat.
    rewrite app_nil_r, Nat.add_0_r. repeat split; trivial. congruence.
  - unfold bind in H.
    destruct (attempt_body E p a w) as [[f | e] w1] eqn:Hatt;
      destruct (attempt_body_one_get _ _ _ _ _ Hatt) as (secs & Htr & Htick).
    + destruct f as [data |].
      * inversion H; subst.
        exists (EGet p :: map ESleep secs), 1%nat.
        cbn [gets repeat length]. rewrite gets_sleeps.
        repeat split; trivial; lia.
      * destruct (IH _ _ _ H) as (evs & k & Htr' & Hg & Hk & _ & Htick').
        exists ((EGet p :: map ESleep secs) ++ evs)%list, (S k).
        rewrite gets_app. cbn [gets repeat length app]. rewrite gets_sleeps, Hg.
        rewrite Htr', Htr, <- app_assoc.
        repeat split; trivial; lia.
    + inversion H; subst.
      exists (EGet p :: map ESleep secs), 1%nat.
      cbn [gets repeat length]. rewrite gets_sleeps.
      repeat split; trivial; lia.
Qed.

(** X4: whatever the server answers, and whether the fetch of a page
    returns data, gives up or raises, it requests that page at least once and
    at most MAX_RETRIES times, and requests no other page. *)
Theorem fetch_page_request_bounds (p : Z) (w w' : world) (o : outcome (option json)) :
  fetch_page E p w = (o, w') ->
  exists evs k,
    trace w' = (trace w ++ evs)%list
    /\ gets evs = repeat p k
    /\ (1 <= k <= Z.to_nat MAX_RETRIES)%nat
    /\ tick w' = (tick w + k)%nat.
Proof.
  unfold fetch_page. change (range 1 (MAX_RETRIES + 1)) with [1; 2; 3].
  intros H.
  destruct (for_attempts_gets p [1; 2; 3] _ _ _ H) as (evs & k & Htr & Hg & Hk & Hpos & Htick).
  exists evs, k.
  split; [exact Htr | split; [exact Hg | split; [| exact Htick]]].
  split; [apply Hpos; discriminate | exact Hk].
Qed.

(** X5: when the first [k] requests of a page fail, with [k] less than
    MAX_RETRIES, and the next one is answered, the fetch returns the data of
    that answer after [k + 1] requests, having slept REQUEST_DELAY * i after
    the i-th failure and nothing after the answer. *)
Theorem fetch_page_recovers (p : Z) (w : world) (data : json) (k : nat) :
  (k < 3)%nat ->
  (forall j, (j < k)%nat -> request_fails (http E (tick w + j) p) = true) ->
  reply_data (http E (tick w + k) p) = Some data ->
  exists w',
    fetch_page E p w = (Ok (Some data), w')
    /\ trace w' = (trace w ++ backoff_events p k ++ [EGet p])%list
    /\ tick w' = (tick w + k + 1)%nat
    /\ dirs w' = dirs w /\ files w' = files w.
Proof.
  intros Hk Hfail Hdata. unfold fetch_page.
  change (range 1 (MAX_RETRIES + 1)) with [1; 2; 3].
  destruct k as [| [| [| k]]]; try lia.
  - rewrite Nat.add_0_r in Hdata.
    eexists. split.
    + cbn [for_attempts]. unfold bind.
      rewrite (attempt_body_data E p 1 w data Hdata). reflexivity.
    + cbn. repeat split; trivial. lia.
  - assert (H0 : request_fails (http E (tick w) p) = true).
    { rewrite <- (Nat.add_0_r (tick w)). apply Hfail. lia. }
    replace (tick w + 1)%nat with (S (tick w)) in Hdata by lia.
    eexists. split.
    + cbn [for_attempts]. unfold bind at 1.
      rewrite (attempt_body_fails E p 1 w H0) by lia.
      change (1 <? MAX_RETRIES) with true. cbv iota.
      unfold bind at 1.
      rewrite (attempt_body_data E p 2 _ data) by exact Hdata.
      reflexivity.
    + cbn. rewrite <- !app_assoc. repeat split; trivial. lia.
  - assert (H0 : request_fails (http E (tick w) p) = true).
    { rewrite <- (Nat.add_0_r (tick w)). apply Hfail. lia. }
    assert (H1 : request_fails (http E (S (tick w)) p) = true).
    { replace (S (tick w)) with (tick w + 1)%nat by lia. apply Hfail. lia. }
    replace (tick w + 2)%nat with (S (S (tick w))) in Hdata by lia.
    eexists. split.
    + cbn [for_attempts]. unfold bind at 1.
      rewrite (attempt_body_fails E p 1 w H0) by lia.
      change (1 <? MAX_RETRIES) with true. cbv iota.
      unfold bind at 1.
      rewrite (attempt_body_fails E p 2) by (trivial; lia).
      change (2 <? MAX_RETRIES) with true. cbv iota.
      unfold bind at 1.
      rewrite (attempt_body_data E p 3 _ data) by exact Hdata.
      reflexivity.
    + cbn. rewrite <- !app_assoc. repeat split; trivial. lia.
Qed.


End Requests.

Lemma fetch_page_request_bounds_witness :
  exists evs k,
    [EGet 0; ESleep 2; EGet 0; ESleep 2; EGet 0; ESleep 2] = ([] ++ evs)%list
    /\ gets evs = repeat 0 k
    /\ (1 <= k <= Z.to_nat MAX_RETRIES)%nat
    /\ 3%nat = (0 + k)%nat.
Proof.
  exact (fetch_page_request_bounds (B := model_builtins) env_429_thrice 0 world0
           {| tick := 3;
              trace := [EGet 0; ESleep 2; EGet 0; ESleep 2; EGet 0; ESleep 2];
              dirs := []; files := [] |} (Ok None) eq_refl).
Defined.

Lemma fetch_page_recovers_witness :
  exists w',
    fetch_page (B := model_builtins) env_flaky 0 world0
    = (Ok (Some (JObj [("items", JArr [item_syktyvkar]); ("pages", JNum 1)])), w')
    /\ trace w' = [EGet 0; ESleep 2; EGet 0]
    /\ tick w' = 2%nat
    /\ dirs w' = [] /\ files w' = [].
Proof.
  refine (fetch_page_recovers (B := model_builtins) env_flaky 0 world0
            (JObj [("items", JArr [item_syktyvkar]); ("pages", JNum 1)]) 1
            _ _ eq_refl).
  - lia.
  - intros [| j] Hj; [reflexivity | lia].
Defined.


(** ** Whole runs of the collection *)

Section Collection.
Context {B : Builtins}.
Variable E : env.

(** An iteration whose fetch brings a dict with iterable items. *)
Lemma loop_body_answered (st : loop_state) (w w1 : world)
  (kvs : list (string * json)) (items : list json) :
  fetch_page E (page st) w = (Ok (Some (JObj kvs)), w1) ->
  py_iter (get_or (JArr []) (assoc "items" kvs)) = Ok items ->
  loop_body E st w
  = (Ok {| page := page st + 1;
           total_pages := get_or (JNum 0) (assoc "pages" kvs);
           vacancies := (vacancies st ++ extracted items)%list |},
     emit (ESleep REQUEST_DELAY) w1).
Proof.
  intros Hfetch Hiter. unfold loop_body, bind. rewrite Hfetch.
  unfold lift. rewrite !py_get_obj.
  fold (get_or (JNum 0) (assoc "pages" kvs)).
  fold (get_or (JArr []) (assoc "items" kvs)).
  rewrite Hiter, fold_process_extracted.
  rewrite sleep_short by (unfold REQUEST_DELAY; lia). reflexivity.
Qed.

Lemma fetch_page_gives_up (p : Z) (w : world) :
  (forall k, (k < 3)%nat -> request_fails (http E (tick w + k) p) = true) ->
  fetch_page E p w
  = (Ok None,
     after_get p (emit (ESleep (REQUEST_DELAY * 2))
       (after_get p (emit (ESleep (REQUEST_DELAY * 1)) (after_get p w))))).
Proof.
  intros Hfail.
  assert (H0 : request_fails (http E (tick w) p) = true).
  { rewrite <- (Nat.add_0_r (tick w)). apply Hfail. lia. }
  assert (H1 : request_fails (http E (S (tick w)) p) = true).
  { replace (S (tick w)) with (tick w + 1)%nat by lia. apply Hfail. lia. }
  assert (H2 : request_fails (http E (S (S (tick w))) p) = true).
  { replace (S (S (tick w))) with (tick w + 2)%nat by lia. apply Hfail. lia. }
  unfold fetch_page. change (range 1 (MAX_RETRIES + 1)) with [1; 2; 3].
  cbn [for_attempts]. unfold bind at 1.
  rewrite (attempt_body_fails E p 1 w H0) by lia.
  change (1 <? MAX_RETRIES) with true. cbv iota. unfold bind at 1.
  rewrite (attempt_body_fails E p 2) by (trivial; lia).
  change (2 <? MAX_RETRIES) with true. cbv iota. unfold bind at 1.
  rewrite (attempt_body_fails E p 3) by (trivial; lia).
  reflexivity.
Qed.

Lemma loop_body_grows (st st' : loop_state) (w w' : world) :
  loop_body E st w = (Ok st', w') ->
  exists added, vacancies st' = (vacancies st ++ added)%list.
Proof.
  intros H.
  destruct (loop_body_inv _ _ _ _ _ H)
    as [[_ ->] | (data & w1 & pages & items & item_list & _ & _ & _ & _ & _ & ->)];
    cbn [vacancies skip_page].
  - exists []. now rewrite app_nil_r.
  - exists (extracted item_list). apply fold_process_extracted.
Qed.

(** X7: whatever the server answers and however the collection ends, with
    the records or on an error, it leaves the directories and the files as
    they were, and everything it does is a request of a page index that is not
    negative, or a sleep. *)
Theorem fetch_vacancies_leaves_files (fuel : nat) (w w' : world)
  (o : outcome (list vacancy)) :
  fetch_vacancies E fuel w = Some (o, w') ->
  dirs w' = dirs w
  /\ files w' = files w
  /\ exists evs,
       trace w' = (trace w ++ evs)%list
       /\ Forall is_net_event evs
       /\ Forall (fun p => 0 <= p) (gets evs).
Proof.
  unfold fetch_vacancies. intros H.
  destruct (fetch_loop E fuel init_state w) as [[o1 w1] |] eqn:Hloop; [| discriminate].
  assert (w1 = w') by (destruct o1; now inversion H). subst w1.
  destruct (fetch_loop_reaches E fuel _ _ _ _ Hloop) as (Hd & Hf & _ & evs & He & Hall).
  repeat split; trivial.
  exists evs. split; trivial.
  clear He. induction Hall as [| e evs He Hall IH]; [split; constructor |].
  destruct IH as [IH1 IH2].
  destruct e as [q | secs | folder | fp | fp rows]; cbn in He; try contradiction;
    cbn [gets]; split; trivial; constructor; cbn; trivial.
Qed.

(** X8: the records that a run has collected stay: after any number of
    iterations the sequence of records begins with the records it held
    before, and the records added after them hold the city keyword. *)
Theorem collected_records_stay (fuel : nat) :
  forall st w st' w',
    fetch_loop E fuel st w = Some (Ok st', w') ->
    exists added,
      vacancies st' = (vacancies st ++ added)%list
      /\ (Forall city_ok (vacancies st) -> Forall city_ok added)
      /\ page st <= page st'.
Proof.
  induction fuel as [| fuel IH]; intros st w st' w' H; cbn [fetch_loop] in H.
  - destruct (py_lt (page st) (total_pages st)) as [[|] | e]; inversion H; subst.
    exists []. rewrite app_nil_r.
    split; [reflexivity | split; [intros; constructor | lia]].
  - destruct (py_lt (page st) (total_pages st)) as [[|] | e]; try discriminate;
      try (inversion H; subst; exists []; rewrite app_nil_r;
           split; [reflexivity | split; [intros; constructor | lia]]).
    destruct (loop_body E st w) as [[st1 | e] w1] eqn:Hbody; [| discriminate].
    destruct (loop_body_grows _ _ _ _ Hbody) as [added1 Hadd1].
    destruct (IH _ _ _ _ H) as (added2 & Hadd2 & Hok2 & Hpage2).
    pose proof (loop_body_page _ _ _ _ _ Hbody) as Hpage1.
    exists (added1 ++ added2)%list. repeat split.
    + now rewrite Hadd2, Hadd1, app_assoc.
    + intros Hok.
      pose proof (loop_body_city_ok _ _ _ _ _ Hbody Hok) as Hok1.
      rewrite Hadd1 in Hok1. apply Forall_app in Hok1.
      apply Forall_app. split; [apply Hok1 |].
      apply Hok2. rewrite Hadd1. apply Forall_app. split; [exact Hok | apply Hok1].
    + lia.
Qed.

(** X9: a successful reply that has no [pages] key sets the bound to 0, so
    the run ends with that page: its records are added (none when [items] is
    missing too), the inter-page sleep is slept, and no further page is
    requested. *)
Theorem missing_pages_ends_run
  (st : loop_state) (w w1 : world) (kvs : list (string * json))
  (items : list json) (fuel : nat) :
  py_lt (page st) (total_pages st) = Ok true ->
  0 <= page st ->
  fetch_page E (page st) w = (Ok (Some (JObj kvs)), w1) ->
  assoc "pages" kvs = None ->
  py_iter (get_or (JArr []) (assoc "items" kvs)) = Ok items ->
  fetch_loop E (S fuel) st w
  = Some (Ok {| page := page st + 1; total_pages := JNum 0;
                vacancies := (vacancies st ++ extracted items)%list |},
          emit (ESleep REQUEST_DELAY) w1)
  /\ (assoc "items" kvs = None -> extracted items = []).
Proof.
  intros Hlt Hpage Hfetch Hpages Hiter. split.
  - cbn [fetch_loop]. rewrite Hlt.
    rewrite (loop_body_answered st w w1 kvs items Hfetch Hiter).
    rewrite Hpages. cbn [get_or].
    destruct fuel; cbn [fetch_loop page total_pages py_lt];
      replace (page st + 1 <? 0) with false by (symmetry; apply Z.ltb_ge; lia);
      reflexivity.
  - intros Hnone. rewrite Hnone in Hiter. cbn in Hiter. inversion Hiter. reflexivity.
Qed.

(** X10: a reply whose body is JSON but not an object, or whose [items] is
    not iterable (null, a number, a bool), ends the run on an error that no
    handler of the collection catches: AttributeError for the body, TypeError
    for the items; no inter-page sleep is slept. *)
Theorem malformed_payload_raises
  (st : loop_state) (w w1 : world) (data : json) (fuel : nat) :
  py_lt (page st) (total_pages st) = Ok true ->
  fetch_page E (page st) w = (Ok (Some data), w1) ->
  (is_dict data = false ->
   fetch_loop E (S fuel) st w = Some (Raise AttributeError, w1))
  /\ (forall kvs items,
        data = JObj kvs -> assoc "items" kvs = Some items ->
        is_iterable items = false ->
        fetch_loop E (S fuel) st w = Some (Raise TypeError, w1)).
Proof.
  intros Hlt Hfetch. split.
  - intros Hdict. cbn [fetch_loop]. rewrite Hlt.
    unfold loop_body, bind. rewrite Hfetch. unfold lift.
    destruct data; try discriminate; reflexivity.
  - intros kvs items -> Hitems Hiter. cbn [fetch_loop]. rewrite Hlt.
    unfold loop_body, bind. rewrite Hfetch. unfold lift.
    rewrite !py_get_obj, Hitems.
    destruct items; try discriminate; reflexivity.
Qed.

(** X11: a reply whose [pages] is neither a number nor a bool (null, a
    string, a list, a dict) does not stop its own page: the items are
    processed and the inter-page sleep is slept; the next loop test then
    raises TypeError, and the run ends on it without returning the records. *)
Theorem non_numeric_pages_raises
  (st : loop_state) (w w1 : world) (kvs : list (string * json)) (pages : json)
  (items : list json) (fuel : nat) :
  py_lt (page st) (total_pages st) = Ok true ->
  fetch_page E (page st) w = (Ok (Some (JObj kvs)), w1) ->
  assoc "pages" kvs = Some pages ->
  is_int pages = false ->
  py_iter (get_or (JArr []) (assoc "items" kvs)) = Ok items ->
  loop_body E st w
  = (Ok {| page := page st + 1; total_pages := pages;
           vacancies := (vacancies st ++ extracted items)%list |},
     emit (ESleep REQUEST_DELAY) w1)
  /\ fetch_loop E (S fuel) st w = Some (Raise TypeError, emit (ESleep REQUEST_DELAY) w1).
Proof.
  intros Hlt Hfetch Hpages Hint Hiter.
  pose proof (loop_body_answered st w w1 kvs items Hfetch Hiter) as Hbody.
  rewrite Hpages in Hbody. cbn [get_or] in Hbody.
  split; trivial.
  cbn [fetch_loop]. rewrite Hlt, Hbody.
  destruct fuel; cbn [fetch_loop page total_pages];
    destruct pages; try discriminate; reflexivity.
Qed.

(** X12: when the three requests of page 0 fail, the run is over: the bound
    is still 1, so no other page is requested, whatever the server would have
    answered, and the result is empty after exactly three requests. *)
Theorem first_page_failure_ends_run (w : world) (fuel : nat) :
  (forall k, (k < 3)%nat -> request_fails (http E (tick w + k) 0) = true) ->
  exists w',
    fetch_vacancies E (S fuel) w = Some (Ok [], w')
    /\ trace w' = (trace w ++ [EGet 0; ESleep (REQUEST_DELAY * 1); EGet 0;
                               ESleep (REQUEST_DELAY * 2); EGet 0])%list
    /\ tick w' = (tick w + 3)%nat.
Proof.
  intros Hfail. eexists. split; [| split].
  - unfold fetch_vacancies.
    cbn [fetch_loop init_state page total_pages py_lt].
    change (0 <? 1) with true. cbv iota.
    unfold loop_body, bind. change (page init_state) with 0.
    rewrite (fetch_page_gives_up 0 w Hfail). unfold ret.
    destruct fuel; reflexivity.
  - cbn. now rewrite <- !app_assoc.
  - cbn. lia.
Qed.

End Collection.

Section AnsweredPages.
Context {B : Builtins}.
Variable E : env.

Lemma fetch_page_first_try (p : Z) (w : world) (data : json) :
  reply_data (http E (tick w) p) = Some data ->
  fetch_page E p w = (Ok (Some data), after_get p w).
Proof.
  intros Hdata. unfold fetch_page.
  change (range 1 (MAX_RETRIES + 1)) with [1; 2; 3].
  cbn [for_attempts]. unfold bind.
  now rewrite (attempt_body_data E p 1 w data Hdata).
Qed.

Variable pages : Z.
Variable payload : Z -> list (string * json).
Variable items_of : Z -> list json.
Hypothesis answered : forall n p, reply_data (http E n p) = Some (JObj (payload p)).
Hypothesis same_pages : forall p, assoc "pages" (payload p) = Some (JNum pages).
Hypothesis page_items : forall p, assoc "items" (payload p) = Some (JArr (items_of p)).

Lemma collect_from (count : nat) :
  forall fuel st w,
    total_pages st = JNum pages ->
    Z.of_nat count = Z.max 0 (pages - page st) ->
    (count <= fuel)%nat ->
    exists st' w',
      fetch_loop E fuel st w = Some (Ok st', w')
      /\ vacancies st' = (vacancies st ++ page_records items_of (page st) count)%list
      /\ trace w' = (trace w ++ page_events (page st) count)%list
      /\ tick w' = (tick w + count)%nat.
Proof.
  induction count as [| count IH]; intros fuel st w Htotal Hcount Hfuel.
  - exists st, w. cbn [page_records page_events].
    rewrite !app_nil_r, Nat.add_0_r. repeat split; trivial.
    destruct fuel; cbn [fetch_loop]; rewrite Htotal; cbn [py_lt];
      replace (page st <? pages) with false by (symmetry; apply Z.ltb_ge; lia);
      reflexivity.
  - destruct fuel as [| fuel]; [lia |].
    set (st1 := {| page := page st + 1; total_pages := JNum pages;
                   vacancies := (vacancies st ++ extracted (items_of (page st)))%list |}).
    set (w1 := emit (ESleep REQUEST_DELAY) (after_get (page st) w)).
    assert (Hbody : loop_body E st w = (Ok st1, w1)).
    { rewrite (loop_body_answered E st w (after_get (page st) w)
                 (payload (page st)) (items_of (page st))).
      - now rewrite same_pages.
      - apply fetch_page_first_try. apply answered.
      - now rewrite page_items. }
    destruct (IH fuel st1 w1) as (st' & w' & Hrun & Hvs & Htr & Htick).
    + reflexivity.
    + cbn [page st1]. lia.
    + lia.
    + exists st', w'. repeat split.
      * cbn [fetch_loop]. rewrite Htotal. cbn [py_lt].
        replace (page st <? pages) with true by (symmetry; apply Z.ltb_lt; lia).
        now rewrite Hbody.
      * rewrite Hvs. cbn [vacancies st1 page page_records]. now rewrite <- app_assoc.
      * rewrite Htr. cbn [trace w1 emit after_get next page st1 page_events].
        now rewrite <- !app_assoc.
      * rewrite Htick. cbn. lia.
Qed.

(** X13: when every request is answered at once, each reply reporting the
    same number of pages, the run requests the pages 0, 1, ... once each, as
    many as that number says and page 0 in any case, sleeps the inter-page
    delay after each, and returns the records of these pages in the order of
    the pages and, within a page, of its items. *)
Theorem all_pages_collected (w : world) (fuel : nat) :
  (Z.to_nat (Z.max 1 pages) <= fuel)%nat ->
  exists w',
    fetch_vacancies E fuel w
    = Some (Ok (page_records items_of 0 (Z.to_nat (Z.max 1 pages))), w')
    /\ trace w' = (trace w ++ page_events 0 (Z.to_nat (Z.max 1 pages)))%list
    /\ tick w' = (tick w + Z.to_nat (Z.max 1 pages))%nat.
Proof.
  intros Hfuel.
  replace (Z.to_nat (Z.max 1 pages)) with (S (Z.to_nat (Z.max 0 (pages - 1)))) in * by lia.
  destruct fuel as [| fuel]; [lia |].
  set (st1 := {| page := 1; total_pages := JNum pages;
                 vacancies := extracted (items_of 0) |}).
  set (w1 := emit (ESleep REQUEST_DELAY) (after_get 0 w)).
  assert (Hbody : loop_body E init_state w = (Ok st1, w1)).
  { rewrite (loop_body_answered E init_state w (after_get 0 w)
               (payload 0) (items_of 0)).
    - now rewrite same_pages.
    - apply fetch_page_first_try. apply answered.
    - now rewrite page_items. }
  destruct (collect_from (Z.to_nat (Z.max 0 (pages - 1))) fuel st1 w1)
    as (st' & w' & Hrun & Hvs & Htr & Htick).
  - reflexivity.
  - cbn [page st1]. lia.
  - lia.
  - exists w'. repeat split.
    + unfold fetch_vacancies. cbn [fetch_loop init_state page total_pages py_lt].
      change (0 <? 1) with true. cbv iota.
      change {| page := 0; total_pages := JNum 1; vacancies := [] |} with init_state.
      rewrite Hbody, Hrun, Hvs. reflexivity.
    + rewrite Htr. cbn [trace w1 emit after_get next page st1 page_events].
      now rewrite <- !app_assoc.
    + rewrite Htick. cbn. lia.
Qed.

End AnsweredPages.

Lemma fetch_vacancies_leaves_files_witness :
  dirs {| tick := 1; trace := [EGet 0]; dirs := []; files := [] |} = dirs world0
  /\ files {| tick := 1; trace := [EGet 0]; dirs := []; files := [] |} = files world0
  /\ exists evs,
       [EGet 0] = (trace world0 ++ evs)%list
       /\ Forall is_net_event evs
       /\ Forall (fun p => 0 <= p) (gets evs).
Proof.
  exact (fetch_vacancies_leaves_files (B := model_builtins) env_retry_date 5 world0
           {| tick := 1; trace := [EGet 0]; dirs := []; files := [] |}
           (Raise ValueError) eq_refl).
Defined.

Lemma collected_records_stay_witness :
  exists added,
    [vacancy_syktyvkar; vacancy_bare] = ([vacancy_syktyvkar] ++ added)%list
    /\ (Forall city_ok [vacancy_syktyvkar] -> Forall city_ok added)
    /\ 1 <= 2.
Proof.
  exact (collected_records_stay (B := model_builtins) (env_pages 2 two_page_items) 3
           {| page := 1; total_pages := JNum 2; vacancies := [vacancy_syktyvkar] |}
           {| tick := 1; trace := [EGet 0; ESleep 2]; dirs := []; files := [] |}
           {| page := 2; total_pages := JNum 2;
              vacancies := [vacancy_syktyvkar; vacancy_bare] |}
           {| tick := 2; trace := [EGet 0; ESleep 2; EGet 1; ESleep 2];
              dirs := []; files := [] |}
           eq_refl).
Defined.

Lemma missing_pages_ends_run_witness :
  fetch_loop (B := model_builtins) env_no_pages 5 init_state world0
  = Some (Ok {| page := 1; total_pages := JNum 0; vacancies := [vacancy_syktyvkar] |},
          {| tick := 1; trace := [EGet 0; ESleep 2]; dirs := []; files := [] |}).
Proof.
  refine (proj1 (missing_pages_ends_run (B := model_builtins) env_no_pages
                   init_state world0
                   {| tick := 1; trace := [EGet 0]; dirs := []; files := [] |}
                   [("items", JArr [item_syktyvkar])] [item_syktyvkar] 4
                   eq_refl _ eq_refl eq_refl eq_refl)).
  cbn. lia.
Defined.

Lemma malformed_payload_raises_witness :
  fetch_loop (B := model_builtins) env_list_body 1 init_state world0
  = Some (Raise AttributeError,
          {| tick := 1; trace := [EGet 0]; dirs := []; files := [] |}).
Proof.
  exact (proj1 (malformed_payload_raises (B := model_builtins) env_list_body
                  init_state world0
                  {| tick := 1; trace := [EGet 0]; dirs := []; files := [] |}
                  (JArr []) 0 eq_refl eq_refl) eq_refl).
Defined.

Lemma non_numeric_pages_raises_witness :
  fetch_loop (B := model_builtins) env_null_pages 5 init_state world0
  = Some (Raise TypeError,
          {| tick := 1; trace := [EGet 0; ESleep 2]; dirs := []; files := [] |}).
Proof.
  exact (proj2 (non_numeric_pages_raises (B := model_builtins) env_null_pages
                  init_state world0
                  {| tick := 1; trace := [EGet 0]; dirs := []; files := [] |}
                  [("items", JArr [item_syktyvkar]); ("pages", JNull)] JNull
                  [item_syktyvkar] 4 eq_refl eq_refl eq_refl eq_refl eq_refl)).
Defined.

Lemma first_page_failure_ends_run_witness :
  exists w',
    fetch_vacancies (B := model_builtins) env_late 5 world0 = Some (Ok [], w')
    /\ trace w' = [EGet 0; ESleep 2; EGet 0; ESleep 4; EGet 0]
    /\ tick w' = 3%nat.
Proof.
  refine (first_page_failure_ends_run (B := model_builtins) env_late world0 4 _).
  intros k Hk. destruct k as [| [| [| k]]]; try reflexivity. lia.
Defined.

Lemma all_pages_collected_witness :
  exists w',
    fetch_vacancies (B := model_builtins) (env_pages 2 two_page_items) 2 world0
    = Some (Ok [vacancy_syktyvkar; vacancy_bare], w')
    /\ trace w' = [EGet 0; ESleep 2; EGet 1; ESleep 2]
    /\ tick w' = 2%nat.
Proof.
  refine (all_pages_collected (B := model_builtins) (env_pages 2 two_page_items) 2
            (fun p => [("items", JArr (two_page_items p)); ("pages", JNum 2)])
            two_page_items
            (fun n p => eq_refl) (fun p => eq_refl) (fun p => eq_refl) world0 2 _).
  cbn. lia.
Defined.

(** ** The sink *)

Lemma path_exists_frame (p : string) (w w' : world) :
  dirs w' = dirs w -> files w' = files w -> path_exists p w' = path_exists p w.
Proof. intros Hd Hf. unfold path_exists. now rewrite Hd, Hf. Qed.

Lemma file_content_filter (p q : string) (fs : list (string * content)) :
  String.eqb q p = false ->
  file_content q (filter (fun f => negb (String.eqb p (fst f))) fs) = file_content q fs.
Proof.
  intros Hqp. induction fs as [| [r c] fs IH]; cbn [filter file_content fst]; trivial.
  destruct (String.eqb p r) eqn:Hpr; cbn [negb].
  - apply String.eqb_eq in Hpr. subst r. now rewrite Hqp.
  - cbn [file_content]. now rewrite IH.
Qed.

Lemma writes_app (a b : list event) : writes (a ++ b) = (writes a ++ writes b)%list.
Proof.
  induction a as [| e a IH]; cbn [app writes]; trivial.
  destruct e; cbn [app]; now rewrite IH.
Qed.

Lemma writes_none (evs : list event) :
  Forall (fun e => ~ is_write e) evs -> writes evs = [].
Proof.
  induction 1 as [| e evs He Hall IH]; cbn [writes]; trivial.
  destruct e; trivial. cbn in He. tauto.
Qed.


Lemma path_exists_set_file (q p : string) (c : content) (w : world) :
  path_exists q w = true -> path_exists q (set_file p c w) = true.
Proof.
  unfold path_exists. cbn [set_file dirs files existsb fst].
  intros H. apply orb_true_iff in H. destruct H as [H | H]; [now rewrite H |].
  apply orb_true_iff. right.
  destruct (String.eqb q p) eqn:Hqp; trivial. cbn [orb].
  induction (files w) as [| [r x] fs IH]; cbn [filter existsb fst] in *; trivial.
  destruct (String.eqb p r) eqn:Hpr; cbn [negb existsb fst].
  - apply String.eqb_eq in Hpr. subst r. rewrite Hqp in H. now apply IH.
  - destruct (String.eqb q r); trivial. now apply IH.
Qed.

Section SinkProperties.
Context {B : Builtins}.
Variable E : env.

(** X14: [ensure_folder_exists] leaves the files alone and keeps the
    directories that exist; after it the directory of the path exists,
    unless the path has no directory part; a second call changes nothing. *)
Theorem ensure_folder_exists_idempotent (filepath : string) (w : world) :
  let w1 := snd (ensure_folder_exists filepath w) in
  files w1 = files w
  /\ (forall d, In d (dirs w) -> In d (dirs w1))
  /\ (String.eqb (path_dirname filepath) "" = false ->
      path_exists (path_dirname filepath) w1 = true)
  /\ (String.eqb (path_dirname filepath) "" = true -> w1 = w)
  /\ ensure_folder_exists filepath w1 = (Ok tt, w1).
Proof.
  unfold ensure_folder_exists.
  destruct (String.eqb (path_dirname filepath) "") eqn:Hempty; cbn [negb andb snd].
  - repeat split; trivial; discriminate.
  - destruct (path_exists (path_dirname filepath) w) eqn:Hex; cbn [negb snd].
    + rewrite Hex. cbn [negb]. repeat split; trivial; discriminate.
    + assert (Hnow : path_exists (path_dirname filepath)
                       (snd (makedirs (path_dirname filepath) w)) = true).
      { unfold path_exists. cbn. now rewrite String.eqb_refl. }
      rewrite Hnow. cbn [negb].
      repeat split; trivial; try discriminate.
      intros d Hd. cbn. now right.
Qed.

Lemma wait_loop_spec (filepath : string) (fuel : nat) :
  forall w start o w',
    wait_loop E fuel filepath 2 MAX_WAIT_TIME start w = Some (o, w') ->
    dirs w' = dirs w
    /\ files w' = files w
    /\ (tick w < tick w')%nat
    /\ (exists evs, trace w' = (trace w ++ evs)%list /\ Forall is_wait_event evs)
    /\ ((o = Ok true
         /\ (path_exists filepath w = true -> locked E (pred (tick w')) = false))
        \/ (o = Ok false /\ MAX_WAIT_TIME <= now E (pred (tick w')) - start)).
Proof.
  induction fuel as [| fuel IH]; intros w start o w' H; cbn [wait_loop] in H;
    unfold time_time in H;
    (destruct (now E (tick w) - start <? MAX_WAIT_TIME) eqn:Hdeadline;
     [| inversion H; subst; cbn; repeat split; try lia;
        [exists []; split; [now rewrite app_nil_r | constructor]
        | right; split; trivial; apply Z.ltb_ge in Hdeadline; lia]]);
    unfold is_file_locked in H;
    rewrite (path_exists_frame filepath w (next w) eq_refl eq_refl) in H;
    (destruct (path_exists filepath w) eqn:Hex; cbn [negb] in H;
     [| inversion H; subst; cbn; repeat split; try lia;
        [exists []; split; [now rewrite app_nil_r | constructor]
        | left; split; trivial; discriminate]]);
    cbn [tick next emit] in H;
    (destruct (locked E (S (tick w))) eqn:Hlocked;
     [| inversion H; subst; cbn; repeat split; try lia;
        [exists [EOpen filepath]; split; [reflexivity | repeat constructor]
        | left; split; trivial]]);
    rewrite (sleep_short 2) in H by lia;
    cbv iota in H; [discriminate |].
  destruct (IH _ _ _ _ H) as (Hd & Hf & Ht & (evs & He & Hall) & Hres).
  cbn in Hd, Hf, Ht. repeat split; trivial; try lia.
  - exists (EOpen filepath :: ESleep 2 :: evs). split.
    + rewrite He. cbn. now rewrite <- !app_assoc.
    + repeat constructor; trivial.
  - destruct Hres as [[-> Hopen] | [-> Hlate]]; [left | right]; split; trivial.
    intros _. apply Hopen. exact Hex.
Qed.



Lemma wait_for_file_answers_full (filepath : string) (fuel : nat) (w w' : world)
  (o : outcome bool) :
  wait_for_file E fuel filepath w = Some (o, w') ->
  dirs w' = dirs w
  /\ files w' = files w
  /\ (exists evs, trace w' = (trace w ++ evs)%list /\ Forall is_wait_event evs).
Proof.
  unfold wait_for_file, time_time. intros H.
  destruct (wait_loop_spec filepath fuel _ _ _ _ H) as (Hd & Hf & _ & Hev & _).
  repeat split; trivial.
Qed.

Lemma wait_for_file_answers_aux (filepath : string) (fuel : nat) (w w' : world)
  (o : outcome bool) :
  wait_for_file E fuel filepath w = Some (o, w') -> files w' = files w.
Proof. intros H. now destruct (wait_for_file_answers_full _ _ _ _ _ H) as (_ & Hf & _). Qed.

Lemma ensure_folder_exists_idempotent_aux (filepath : string) (w : world) :
  String.eqb (path_dirname filepath) "" = false ->
  path_exists (path_dirname filepath) (snd (ensure_folder_exists filepath w)) = true.
Proof.
  intros Hne. unfold ensure_folder_exists. rewrite Hne. cbn [negb andb].
  destruct (path_exists (path_dirname filepath) w) eqn:Hex; cbn [negb snd]; trivial.
  unfold path_exists. cbn. now rewrite String.eqb_refl.
Qed.

(** X15: [wait_for_file] does not raise and changes no directory and no
    file; it only opens the file and sleeps.  It answers True only when
    the file does not exist or its last open of the file succeeded, and
    False only when the clock it last read was MAX_WAIT_TIME or more after the
    start. *)
Theorem wait_for_file_answers (filepath : string) (fuel : nat) (w w' : world)
  (o : outcome bool) :
  wait_for_file E fuel filepath w = Some (o, w') ->
  dirs w' = dirs w
  /\ files w' = files w
  /\ (exists evs, trace w' = (trace w ++ evs)%list /\ Forall is_wait_event evs)
  /\ ((o = Ok true
       /\ (path_exists filepath w = true -> locked E (pred (tick w')) = false))
      \/ (o = Ok false
          /\ MAX_WAIT_TIME <= now E (pred (tick w')) - now E (tick w))).
Proof.
  unfold wait_for_file, time_time. intros H.
  destruct (wait_loop_spec filepath fuel _ _ _ _ H)
    as (Hd & Hf & _ & Hev & Hres).
  repeat split; trivial.
Qed.




Lemma ensure_folder_exists_spec (filepath : string) (w : world) :
  exists w1,
    ensure_folder_exists filepath w = (Ok tt, w1)
    /\ files w1 = files w
    /\ tick w1 = tick w
    /\ (forall q, path_exists q w = true -> path_exists q w1 = true)
    /\ (forall q, String.eqb q (path_dirname filepath) = false ->
                  path_exists q w1 = path_exists q w)
    /\ (exists evs, trace w1 = (trace w ++ evs)%list
                    /\ Forall (fun e => ~ is_write e /\ ~ is_wait_event e) evs).
Proof.
  unfold ensure_folder_exists.
  destruct (negb (String.eqb (path_dirname filepath) "")
            && negb (path_exists (path_dirname filepath) w)).
  - eexists. split; [reflexivity |]. cbn [makedirs files tick dirs trace].
    repeat split; trivial.
    + intros q Hq. unfold path_exists in *. cbn [dirs files existsb].
      apply orb_true_iff in Hq. destruct Hq as [Hq | Hq]; rewrite Hq;
        now rewrite ?orb_true_r.
    + intros q Hq. unfold path_exists. cbn [dirs files existsb]. now rewrite Hq.
    + eexists. split; [reflexivity |]. repeat constructor; cbn; tauto.
  - exists w. repeat split; trivial.
    exists []. split; [now rewrite app_nil_r | constructor].
Qed.

(** What one call of the writer does to the world. *)
Lemma to_excel_spec (rows : list vacancy) (filepath : string) (w : world) :
  exists w',
    to_excel E rows filepath w = (Ok tt, w')
    /\ trace w' = (trace w ++ [EWrite filepath rows])%list
    /\ (forall q, String.eqb q filepath = false ->
                  file_content q (files w') = file_content q (files w))
    /\ (forall q, path_exists q w = true -> path_exists q w' = true).
Proof.
  unfold to_excel.
  destruct (to_excel_ok E (tick w)); [| destruct (to_excel_opened E (tick w))];
    eexists; (split; [reflexivity |]); cbn [set_file next emit trace files];
    repeat split; trivial; intros q Hq.
  - cbn [file_content]. rewrite Hq. now apply file_content_filter.
  - now apply (path_exists_set_file q filepath (Sheet rows) (next (emit (EWrite filepath rows) w))).
  - cbn [file_content]. rewrite Hq. now apply file_content_filter.
  - now apply (path_exists_set_file q filepath Partial (next (emit (EWrite filepath rows) w))).
Qed.

(** X17: [save_to_excel] leaves every file other than the one of its path
    as it was; it calls the writer at most once, and then for its path and
    with exactly the rows it was given; when it does not call the writer,
    every file is as it was before the call. *)
Theorem save_to_excel_safe (fuel : nat) (rows : list vacancy) (filepath : string)
  (w w' : world) (o : outcome unit) :
  save_to_excel E fuel rows filepath w = Some (o, w') ->
  (forall q, String.eqb q filepath = false ->
             file_content q (files w') = file_content q (files w))
  /\ exists evs,
       trace w' = (trace w ++ evs)%list
       /\ ((writes evs = [] /\ files w' = files w)
           \/ writes evs = [(filepath, rows)]).
Proof.
  unfold save_to_excel. intros H.
  destruct (ensure_folder_exists_spec filepath w)
    as (w1 & Hens & Hf1 & _ & _ & _ & evs1 & Htr1 & Hevs1).
  rewrite Hens in H.
  assert (Hw1 : writes evs1 = []).
  { apply writes_none. eapply Forall_impl; [| exact Hevs1]. cbn. tauto. }
  assert (Hwrite : forall w2 evs2 o2 w3,
             files w2 = files w -> trace w2 = (trace w ++ evs2)%list ->
             writes evs2 = [] ->
             to_excel E rows filepath w2 = (o2, w3) ->
             (forall q, String.eqb q filepath = false ->
                        file_content q (files w3) = file_content q (files w))
             /\ exists evs,
                  trace w3 = (trace w ++ evs)%list
                  /\ ((writes evs = [] /\ files w3 = files w)
                      \/ writes evs = [(filepath, rows)])).
  { intros w2 evs2 o2 w3 Hf2 Htr2 Hnone Hto.
    destruct (to_excel_spec rows filepath w2) as (w4 & Hto4 & Htr4 & Hother & _).
    rewrite Hto4 in Hto. inversion Hto; subst. split.
    - intros q Hq. rewrite (Hother q Hq). now rewrite Hf2.
    - exists (evs2 ++ [EWrite filepath rows])%list. split.
      + now rewrite Htr4, Htr2, app_assoc.
      + right. rewrite writes_app, Hnone. reflexivity. }
  destruct (path_exists filepath w1).
  - destruct (wait_for_file E fuel filepath w1) as [[ob w2] |] eqn:Hwait;
      [| discriminate].
    destruct (wait_for_file_answers_full filepath fuel w1 w2 _ Hwait)
      as (_ & Hf2 & evs2 & Htr2 & Hevs2).
    assert (Hw2 : writes (evs1 ++ evs2) = []).
    { rewrite writes_app, Hw1. apply writes_none.
      eapply Forall_impl; [| exact Hevs2].
      intros [q | secs | folder | fp | fp x]; cbn; tauto. }
    assert (Htr : trace w2 = (trace w ++ evs1 ++ evs2)%list)
      by now rewrite Htr2, Htr1, app_assoc.
    assert (Hf : files w2 = files w) by congruence.
    destruct ob as [[|] | e].
    + inversion H as [Hto]. eapply Hwrite; eauto.
    + inversion H; subst. split; [intros; now rewrite Hf |].
      exists (evs1 ++ evs2)%list. split; trivial. now left.
    + inversion H; subst. split; [intros; now rewrite Hf |].
      exists (evs1 ++ evs2)%list. split; trivial. now left.
  - inversion H as [Hto]. eapply Hwrite; eauto.
Qed.

Lemma save_to_excel_new_file (fuel : nat) (rows : list vacancy)
  (filepath : string) (w : world) :
  path_exists filepath w = false ->
  String.eqb filepath (path_dirname filepath) = false ->
  exists w',
    save_to_excel E fuel rows filepath w = Some (Ok tt, w')
    /\ (String.eqb (path_dirname filepath) "" = false ->
        path_exists (path_dirname filepath) w' = true)
    /\ (exists evs, trace w' = (trace w ++ evs ++ [EWrite filepath rows])%list
                    /\ Forall (fun e => ~ is_write e /\ ~ is_wait_event e) evs).
Proof.
  intros Hnew Hdir. unfold save_to_excel.
  destruct (ensure_folder_exists_spec filepath w)
    as (w1 & Hens & Hf1 & Ht1 & Hkeep & Hother & evs & Htr & Hevs).
  rewrite Hens, (Hother filepath Hdir), Hnew.
  destruct (to_excel_spec rows filepath w1) as (w2 & Hto & Htr2 & _ & Hstay).
  rewrite Hto. exists w2. split; [reflexivity |]. split.
  - intros Hne. apply Hstay.
    pose proof (ensure_folder_exists_idempotent_aux filepath w Hne) as Hmade.
    rewrite Hens in Hmade. exact Hmade.
  - exists evs. split; trivial. now rewrite Htr2, Htr, app_assoc.
Qed.

(** X18: when the file does not exist yet, [save_to_excel] makes the
    directory of the path if it is missing, does not wait for the file, and
    calls the writer for its path with exactly the rows it was given; that
    call is the last thing it does, and it returns whether the write
    succeeded or failed. *)
Theorem save_to_excel_writes_new_file (fuel : nat) (rows : list vacancy)
  (filepath : string) (w : world) :
  path_exists filepath w = false ->
  String.eqb filepath (path_dirname filepath) = false ->
  exists w',
    save_to_excel E fuel rows filepath w = Some (Ok tt, w')
    /\ (String.eqb (path_dirname filepath) "" = false ->
        path_exists (path_dirname filepath) w' = true)
    /\ (exists evs, trace w' = (trace w ++ evs ++ [EWrite filepath rows])%list
                    /\ Forall (fun e => ~ is_write e /\ ~ is_wait_event e) evs).
Proof.
  intros Hnew Hdir.
  destruct (save_to_excel_new_file fuel rows filepath w Hnew Hdir)
    as (w' & Hsave & Hfolder & Hevs).
  exists w'. split; [exact Hsave |]. split; [exact Hfolder | exact Hevs].
Qed.


End SinkProperties.

(** ** main *)

Section Main.
Context {B : Builtins}.
Variable E : env.

Lemma fetch_vacancies_frame (fuel : nat) (w w' : world) (o : outcome (list vacancy)) :
  fetch_vacancies E fuel w = Some (o, w') ->
  dirs w' = dirs w /\ files w' = files w.
Proof.
  unfold fetch_vacancies. intros H.
  destruct (fetch_loop E fuel init_state w) as [[o1 w1] |] eqn:Hloop; [| discriminate].
  assert (w1 = w') by (destruct o1; now inversion H). subst w1.
  destruct (fetch_loop_reaches E fuel _ _ _ _ Hloop) as (Hd & Hf & _).
  now split.
Qed.

(** X20: when the collection raises, [main] logs that error as critical
    and ends; nothing has been saved: the directories and the files are as
    they were before the run, and the run consists of requests and sleeps
    only, so the records collected before the error are lost. *)
Theorem main_collection_error_saves_nothing (fuel : nat) (w w' : world) (e : exn) :
  fetch_vacancies E fuel w = Some (Raise e, w') ->
  main E fuel w = Some (CriticalError e, w')
  /\ dirs w' = dirs w
  /\ files w' = files w
  /\ exists evs, trace w' = (trace w ++ evs)%list /\ Forall is_net_event evs.
Proof.
  intros H. split; [unfold main; now rewrite H |].
  destruct (fetch_vacancies_frame _ _ _ _ H) as [Hd Hf].
  split; [exact Hd | split; [exact Hf |]].
  unfold fetch_vacancies in H.
  destruct (fetch_loop E fuel init_state w) as [[[st | e1] w1] |] eqn:Hloop;
    try discriminate.
  inversion H; subst.
  destruct (fetch_loop_reaches E fuel _ _ _ _ Hloop) as (_ & _ & _ & evs & He & Hall).
  exists evs. split; trivial.
  eapply Forall_impl; [| exact Hall].
  intros [q | secs | folder | fp | fp rows]; cbn; trivial.
Qed.


End Main.

Lemma wait_for_file_answers_witness :
  exists o w',
    wait_for_file (B := model_builtins) env_locked 30 EXCEL_PATH
      (world_with_file EXCEL_PATH []) = Some (o, w')
    /\ dirs w' = []
    /\ files w' = [(EXCEL_PATH, Sheet [])]
    /\ o = Ok false.
Proof.
  eexists. eexists. split; [vm_compute; reflexivity |].
  match goal with
  | |- context [dirs ?w'] =>
      destruct (wait_for_file_answers (B := model_builtins) env_locked EXCEL_PATH 30
                  (world_with_file EXCEL_PATH []) w' (Ok false) eq_refl)
        as (Hd & Hf & _ & Hres)
  end.
  repeat split; trivial.
Defined.


Lemma save_to_excel_safe_witness :
  exists o w',
    save_to_excel (B := model_builtins) env_down 5 [vacancy_bare] EXCEL_PATH
      (world_with_file "C:\notes.txt" [vacancy_syktyvkar])
    = Some (o, w')
    /\ file_content "C:\notes.txt" (files w') = Some (Sheet [vacancy_syktyvkar])
    /\ exists evs,
         trace w' = ([] ++ evs)%list
         /\ ((writes evs = [] /\ files w' = [("C:\notes.txt", Sheet [vacancy_syktyvkar])])
             \/ writes evs = [(EXCEL_PATH, [vacancy_bare])]).
Proof.
  eexists. eexists. split; [vm_compute; reflexivity |].
  match goal with
  | |- file_content _ (files ?w') = _ /\ _ =>
      destruct (save_to_excel_safe (B := model_builtins) env_down 5
                  [vacancy_bare] EXCEL_PATH
                  (world_with_file "C:\notes.txt" [vacancy_syktyvkar])
                  w' (Ok tt) eq_refl) as [Hother Hevs]
  end.
  split; [| exact Hevs].
  rewrite Hother by reflexivity. reflexivity.
Defined.

Lemma save_to_excel_writes_new_file_witness :
  exists w',
    save_to_excel (B := model_builtins) env_down 5 [vacancy_bare] EXCEL_PATH world0
    = Some (Ok tt, w')
    /\ path_exists "C:\Users\pavel\PycharmProjects\txx" w' = true
    /\ exists evs, trace w' = ([] ++ evs ++ [EWrite EXCEL_PATH [vacancy_bare]])%list.
Proof.
  destruct (save_to_excel_writes_new_file (B := model_builtins) env_down 5
              [vacancy_bare] EXCEL_PATH world0 eq_refl eq_refl)
    as (w' & Hsave & Hfolder & evs & Htr & _).
  exists w'. split; [exact Hsave |]. split; [apply Hfolder; reflexivity |].
  exists evs. exact Htr.
Defined.


Lemma main_collection_error_saves_nothing_witness :
  main (B := model_builtins) env_retry_date 5 world0
  = Some (CriticalError ValueError,
          {| tick := 1; trace := [EGet 0]; dirs := []; files := [] |}).
Proof.
  exact (proj1 (main_collection_error_saves_nothing (B := model_builtins)
                  env_retry_date 5 world0
                  {| tick := 1; trace := [EGet 0]; dirs := []; files := [] |}
                  ValueError eq_refl)).
Defined.


(** ** The order of the requests of a run *)

Lemma sorted_repeat_app (p : Z) (k : nat) (l : list Z) :
  StronglySorted Z.le l -> Forall (fun q => p <= q) l ->
  StronglySorted Z.le (repeat p k ++ l).
Proof.
  intros Hsorted Hall. induction k as [| k IH]; cbn [repeat app]; trivial.
  constructor; trivial.
  apply Forall_app. split; trivial.
  clear. induction k; cbn; constructor; trivial. lia.
Qed.

Lemma count_repeat_app (p q : Z) (k : nat) (l : list Z) :
  (k <= 3)%nat -> Forall (fun x => p + 1 <= x) l ->
  (count_occ Z.eq_dec l q <= 3)%nat ->
  (count_occ Z.eq_dec (repeat p k ++ l) q <= 3)%nat.
Proof.
  intros Hk Hall Hl. rewrite count_occ_app.
  destruct (Z.eq_dec q p) as [-> | Hne].
  - rewrite count_occ_repeat_eq by reflexivity.
    assert (Hout : count_occ Z.eq_dec l p = 0%nat).
    { apply count_occ_not_In. intros Hin.
      rewrite Forall_forall in Hall. specialize (Hall _ Hin). lia. }
    lia.
  - rewrite count_occ_repeat_neq by exact Hne. lia.
Qed.

Section RequestOrder.
Context {B : Builtins}.
Variable E : env.

Lemma loop_body_gets (st : loop_state) (w w' : world) (o : outcome loop_state) :
  loop_body E st w = (o, w') ->
  exists evs k,
    trace w' = (trace w ++ evs)%list
    /\ gets evs = repeat (page st) k
    /\ (k <= 3)%nat.
Proof.
  unfold loop_body, bind, fetch_page.
  change (range 1 (MAX_RETRIES + 1)) with [1; 2; 3].
  destruct (for_attempts E (page st) [1; 2; 3] w) as [[fetched | e] w1] eqn:Hfetch;
    destruct (for_attempts_gets E (page st) [1; 2; 3] _ _ _ Hfetch)
      as (evs & k & Htr & Hg & Hk & _ & _); intros H.
  - destruct fetched as [data |].
    + unfold lift in H.
      destruct (py_get data "pages" (JNum 0)) as [pages | e];
        [| inversion H; subst; exists evs, k; repeat split; trivial].
      destruct (py_get data "items" (JArr [])) as [items | e];
        [| inversion H; subst; exists evs, k; repeat split; trivial].
      destruct (py_iter items) as [item_list | e];
        [| inversion H; subst; exists evs, k; repeat split; trivial].
      rewrite sleep_short in H by (unfold REQUEST_DELAY; lia).
      unfold ret in H. inversion H; subst.
      exists (evs ++ [ESleep REQUEST_DELAY])%list, k.
      cbn [emit trace]. rewrite Htr, gets_app, Hg. cbn [gets].
      rewrite app_nil_r, <- app_assoc. repeat split; trivial.
    + unfold ret in H. inversion H; subst. exists evs, k. repeat split; trivial.
  - inversion H; subst. exists evs, k. repeat split; trivial.
Qed.

(** X22: in a whole run, however it ends, the pages are requested in
    ascending order of their index, from the page index of the start on,
    and no page index is requested more than MAX_RETRIES times. *)
Theorem pages_requested_in_order (fuel : nat) :
  forall st w o w',
    fetch_loop E fuel st w = Some (o, w') ->
    exists evs,
      trace w' = (trace w ++ evs)%list
      /\ StronglySorted Z.le (gets evs)
      /\ Forall (fun q => page st <= q) (gets evs)
      /\ forall q, (count_occ Z.eq_dec (gets evs) q <= Z.to_nat MAX_RETRIES)%nat.
Proof.
  induction fuel as [| fuel IH]; intros st w o w' H; cbn [fetch_loop] in H.
  - destruct (py_lt (page st) (total_pages st)) as [[|] | e]; inversion H; subst;
      (exists []; rewrite app_nil_r; cbn;
       repeat split; try constructor; intros; lia).
  - destruct (py_lt (page st) (total_pages st)) as [[|] | e];
      try (inversion H; subst; exists []; rewrite app_nil_r; cbn;
           repeat split; try constructor; intros; lia).
    destruct (loop_body E st w) as [[st1 | e] w1] eqn:Hbody;
      destruct (loop_body_gets _ _ _ _ Hbody) as (evs1 & k & Htr1 & Hg1 & Hk).
    + pose proof (loop_body_page _ _ _ _ _ Hbody) as Hpage.
      destruct (IH _ _ _ _ H) as (evs2 & Htr2 & Hsorted & Hfrom & Hcount).
      assert (Hlater : Forall (fun q => page st + 1 <= q) (gets evs2)).
      { eapply Forall_impl; [| exact Hfrom]. cbn. intros q Hq. lia. }
      exists (evs1 ++ evs2)%list. rewrite gets_app, Hg1. repeat split.
      * now rewrite Htr2, Htr1, app_assoc.
      * apply sorted_repeat_app; trivial.
        eapply Forall_impl; [| exact Hlater]. cbn. intros q Hq. lia.
      * apply Forall_app. split.
        -- clear. induction k; cbn; constructor; trivial. lia.
        -- eapply Forall_impl; [| exact Hlater]. cbn. intros q Hq. lia.
      * intros q. apply count_repeat_app; [exact Hk | exact Hlater | apply Hcount].
    + inversion H; subst. exists evs1. rewrite Hg1. repeat split; trivial.
      * rewrite <- (app_nil_r (repeat (page st) k)).
        apply sorted_repeat_app; constructor.
      * clear. induction k; cbn; constructor; trivial. lia.
      * intros q. rewrite <- (app_nil_r (repeat (page st) k)).
        apply count_repeat_app; [exact Hk | constructor | cbn; lia].
Qed.

End RequestOrder.

Lemma pages_requested_in_order_witness :
  exists evs,
    [EGet 0; ESleep 2; EGet 1; ESleep 2; EGet 1; ESleep 4; EGet 1; EGet 2; ESleep 2]
    = (trace world0 ++ evs)%list
    /\ StronglySorted Z.le (gets evs)
    /\ Forall (fun q => page init_state <= q) (gets evs)
    /\ forall q, (count_occ Z.eq_dec (gets evs) q <= Z.to_nat MAX_RETRIES)%nat.
Proof.
  exact (pages_requested_in_order (B := model_builtins) env_page1_down 5
           init_state world0
           (Ok {| page := 3; total_pages := JNum 3; vacancies := [] |})
           {| tick := 5;
              trace := [EGet 0; ESleep 2; EGet 1; ESleep 2; EGet 1; ESleep 4;
                        EGet 1; EGet 2; ESleep 2];
              dirs := []; files := [] |}
           eq_refl).
Defined.

(** ** A page that is given up *)

Section SkippedPage.
Context {B : Builtins}.
Variable E : env.

Lemma for_attempts_first_get (p attempt : Z) (rest : list Z) (w w' : world)
  (o : outcome (option json)) :
  for_attempts E p (attempt :: rest) w = (o, w') ->
  exists evs, trace w' = (trace w ++ EGet p :: evs)%list.
Proof.
  cbn [for_attempts]. unfold bind. intros H.
  destruct (attempt_body E p attempt w) as [[f | e] w1] eqn:Hatt;
    destruct (attempt_body_one_get E _ _ _ _ _ Hatt) as (secs & Htr & _).
  - destruct f as [data |].
    + inversion H; subst. eauto.
    + destruct (for_attempts_gets E p rest _ _ _ H) as (evs & k & Htr' & _).
      exists (map ESleep secs ++ evs)%list.
      rewrite Htr', Htr, <- app_assoc. reflexivity.
  - inversion H; subst. eauto.
Qed.

(** Whatever an iteration ends with, it begins with the request of its page. *)
Lemma loop_body_first_get (st : loop_state) (w w' : world) (o : outcome loop_state) :
  loop_body E st w = (o, w') ->
  exists evs, trace w' = (trace w ++ EGet (page st) :: evs)%list.
Proof.
  unfold loop_body, bind, fetch_page.
  change (range 1 (MAX_RETRIES + 1)) with [1; 2; 3].
  destruct (for_attempts E (page st) [1; 2; 3] w) as [[fetched | e] w1] eqn:Hfetch;
    destruct (for_attempts_first_get _ _ _ _ _ _ Hfetch) as (evs & Htr); intros H.
  - destruct fetched as [data |].
    + unfold lift in H.
      destruct (py_get data "pages" (JNum 0)) as [pages | e];
        [| inversion H; subst; eauto].
      destruct (py_get data "items" (JArr [])) as [items | e];
        [| inversion H; subst; eauto].
      destruct (py_iter items) as [item_list | e];
        [| inversion H; subst; eauto].
      rewrite sleep_short in H by (unfold REQUEST_DELAY; lia).
      unfold ret in H. inversion H; subst.
      exists (evs ++ [ESleep REQUEST_DELAY])%list.
      cbn [emit trace]. rewrite Htr, <- app_assoc. reflexivity.
    + unfold ret in H. inversion H; subst. eauto.
  - inversion H; subst. eauto.
Qed.

(** C8: when the three requests of a page fail (network error, HTTP error
    status, body that is not JSON), the fetcher makes exactly three requests,
    sleeps REQUEST_DELAY * 1 and REQUEST_DELAY * 2 between them, and returns
    without data and without raising; the loop moves to the next page index
    with its bound and its records unchanged, and no later request of the run
    asks for the skipped page again.  The run goes on from there: it is the
    run from the state after the skip, which returns that state when the
    bound does not allow the next page index, and otherwise runs the
    iteration of the next page index, whose first action is the request of
    that page. *)
Theorem persistent_failure_skips_page (st : loop_state) (w : world) :
  (forall k, (k < 3)%nat -> request_fails (http E (tick w + k) (page st)) = true) ->
  let p := page st in
  let w' := after_get p (emit (ESleep (REQUEST_DELAY * 2))
              (after_get p (emit (ESleep (REQUEST_DELAY * 1)) (after_get p w)))) in
  let st' := {| page := p + 1; total_pages := total_pages st;
                vacancies := vacancies st |} in
  fetch_page E p w = (Ok None, w')
  /\ loop_body E st w = (Ok st', w')
  /\ tick w' = (tick w + Z.to_nat MAX_RETRIES)%nat
  /\ trace w' = (trace w ++ [EGet p; ESleep (REQUEST_DELAY * 1); EGet p;
                             ESleep (REQUEST_DELAY * 2); EGet p])%list
  /\ (forall fuel o w'',
        fetch_loop E fuel st' w' = Some (o, w'') ->
        exists evs, trace w'' = (trace w' ++ evs)%list /\ ~ In (EGet p) evs)
  /\ (py_lt p (total_pages st) = Ok true ->
      forall fuel, fetch_loop E (S fuel) st w = fetch_loop E fuel st' w')
  /\ (py_lt (p + 1) (total_pages st) = Ok false ->
      forall fuel, fetch_loop E fuel st' w' = Some (Ok st', w'))
  /\ (py_lt (p + 1) (total_pages st) = Ok true ->
      forall fuel,
      exists o2 w2 evs,
        loop_body E st' w' = (o2, w2)
        /\ trace w2 = (trace w' ++ EGet (p + 1) :: evs)%list
        /\ fetch_loop E (S fuel) st' w'
           = match o2 with
             | Ok st2 => fetch_loop E fuel st2 w2
             | Raise e => Some (Raise e, w2)
             end).
Proof.
  intros Hfail p w' st'.
  assert (Hfetch : fetch_page E p w = (Ok None, w')) by exact (fetch_page_gives_up E p w Hfail).
  assert (Hbody : loop_body E st w = (Ok st', w')).
  { unfold loop_body, bind. fold p. now rewrite Hfetch. }
  split; [exact Hfetch |]. split; [exact Hbody |].
  split; [cbn; lia |]. split; [cbn; now rewrite <- !app_assoc |].
  split; [| split; [| split]].
  - intros fuel o w'' Hrun.
    destruct (fetch_loop_reaches E fuel st' w' o w'' Hrun) as (_ & _ & _ & evs & Hevs & Hall).
    exists evs. split; trivial.
    intros Hin. rewrite Forall_forall in Hall.
    specialize (Hall _ Hin). cbn in Hall. lia.
  - intros Hlt fuel. cbn [fetch_loop]. fold p. now rewrite Hlt, Hbody.
  - intros Hlt fuel. destruct fuel; cbn [fetch_loop page total_pages st']; now rewrite Hlt.
  - intros Hlt fuel.
    destruct (loop_body E st' w') as [o2 w2] eqn:Hnext.
    destruct (loop_body_first_get _ _ _ _ Hnext) as [evs Htr].
    exists o2, w2, evs. split; [reflexivity |]. split; [exact Htr |].
    cbn [fetch_loop page total_pages st']. rewrite Hlt, Hnext. now destruct o2.
Qed.

End SkippedPage.

Lemma persistent_failure_skips_page_witness :
  fetch_loop (B := model_builtins) env_page1_down 4
    {| page := 1; total_pages := JNum 3; vacancies := [] |}
    {| tick := 1; trace := [EGet 0; ESleep 2]; dirs := []; files := [] |}
  = Some (Ok {| page := 3; total_pages := JNum 3; vacancies := [] |},
          {| tick := 5;
             trace := [EGet 0; ESleep 2; EGet 1; ESleep 2; EGet 1; ESleep 4;
                       EGet 1; EGet 2; ESleep 2];
             dirs := []; files := [] |}).
Proof.
  rewrite (proj1 (proj2 (proj2 (proj2 (proj2 (proj2
             (persistent_failure_skips_page (B := model_builtins) env_page1_down
                {| page := 1; total_pages := JNum 3; vacancies := [] |}
                {| tick := 1; trace := [EGet 0; ESleep 2]; dirs := []; files := [] |}
                (fun k _ => eq_refl))))))) eq_refl 3%nat).
  reflexivity.
Defined.
